(** * bot.js: a patrolling Minecraft bot and its web control API

    Shallow embedding of [src/bot.js] and the properties of its
    connection life cycle, patrol loop and HTTP endpoints.

    Conventions of the embedding.
    - JavaScript numbers are idealised as real numbers ([R]); [NaN], the
      infinities, the negative zero and the rounding of IEEE doubles are
      outside the model.
    - JavaScript strings are lists of UTF-16 code units.
    - The module-level variables [config], [botState] and [bot], together
      with the contents of [config.json], form the [World].  Every function
      of the script is a computation in the monad [Js], which threads the
      world, may throw, and emits the externally visible [Effect]s
      ([console.log], [setTimeout], calls into mineflayer, [fs], HTTP
      answers) in program order.
    - An [async] function is cut at its [await]s: one definition for the
      code from the call to the first suspension, one for each resumption.
    - mineflayer, the pathfinder plugin, express, the file system, the
      timer queue and [Math.random] are the environment: what they return
      and when they call back is an input of the model ([Event], [Inputs]).
    - Not modelled, for they write nothing: [GET /api/bot-status], the
      static files, the listener of the web server and the [SIGINT]
      handler. *)

From Stdlib Require Import Reals Lra ZArith NArith List String Ascii.
From stdpp Require Import base option list gmap strings.
Import ListNotations.

(** ** JavaScript values *)

Definition JsString : Type := list N.

(** The code units of an ASCII literal. *)
Definition js (s : string) : JsString :=
  List.map N_of_ascii (list_ascii_of_string s).

(** ECMAScript [WhiteSpace] and [LineTerminator] code points, the ones
    [String.prototype.trim] strips. *)
Definition is_white_space (c : N) : bool :=
  (N.eqb c 9 || N.eqb c 10 || N.eqb c 11 || N.eqb c 12 || N.eqb c 13
   || N.eqb c 32 || N.eqb c 160 || N.eqb c 5760
   || (N.leb 8192 c && N.leb c 8202)
   || N.eqb c 8232 || N.eqb c 8233 || N.eqb c 8239 || N.eqb c 8287
   || N.eqb c 12288 || N.eqb c 65279)%bool.

Fixpoint trim_start (s : JsString) : JsString :=
  match s with
  | [] => []
  | c :: s' => if is_white_space c then trim_start s' else s
  end.

Definition trim (s : JsString) : JsString :=
  rev (trim_start (rev (trim_start s))).

Inductive JsVal : Type :=
| JUndefined
| JNull
| JBool (b : bool)
| JNum (r : R)
| JStr (s : JsString)
| JObj.                      (* any object or array: never inspected *)

Inductive JsType : Type :=
| TyUndefined | TyObject | TyBoolean | TyNumber | TyString.

Definition typeof (v : JsVal) : JsType :=
  match v with
  | JUndefined => TyUndefined
  | JNull => TyObject
  | JBool _ => TyBoolean
  | JNum _ => TyNumber
  | JStr _ => TyString
  | JObj => TyObject
  end.

#[global] Instance JsType_eq_dec : EqDecision JsType.
Proof. solve_decision. Defined.

#[global] Instance R_eq_dec : EqDecision R := Req_dec_T.
#[global] Instance Rlt_decision : RelDecision Rlt := Rlt_dec.
#[global] Instance Rle_decision : RelDecision Rle := Rle_dec.
#[global] Instance Rgt_decision : RelDecision Rgt := Rgt_dec.

(** [ToBoolean]. *)
Definition truthy (v : JsVal) : bool :=
  match v with
  | JUndefined | JNull => false
  | JBool b => b
  | JNum r => negb (bool_decide (r = 0%R))
  | JStr s => negb (bool_decide (s = []))
  | JObj => true
  end.

(** The string or number held by a value whose [typeof] has been tested. *)
Definition as_string (v : JsVal) : JsString :=
  match v with JStr s => s | _ => [] end.

Definition as_number (v : JsVal) : R :=
  match v with JNum r => r | _ => 0%R end.

(** A parsed JSON request body; a missing property reads as [undefined]. *)
Definition prop (body : gmap string JsVal) (k : string) : JsVal :=
  default JUndefined (body !! k).

(** [Math.round]: the nearest integer, ties towards plus infinity. *)
Definition Math_round (x : R) : R := IZR (Zfloor (x + / 2)).

(** ** The data of the script *)

Record Vec3 : Type := mkVec3 { vx : R; vy : R; vz : R }.

(** The parts of [config.json] the script reads. *)
Record Config : Type := mkConfig {
  server_host : JsString;
  server_port : R;
  bot_username : JsString;
  patrol_radius : R;
  patrol_centerX : R;
  patrol_centerY : R;
  patrol_centerZ : R
}.

Record BotState : Type := mkBotState {
  connected : bool;
  position : Vec3;
  center : Vec3;
  isPatrolling : bool;
  currentTarget : option Vec3;
  health : R;
  food : R;
  lastChat : JsString;
  players : list JsString;
  serverConfigured : bool;
  switchingServers : bool
}.

(** What the script reads of the mineflayer bot object.  The library
    mutates this object on its own; [bot_pathfinder] is false as long as
    the plugin has not been injected ([bot.pathfinder] is undefined). *)
Record Bot : Type := mkBot {
  bot_entity : option Vec3;        (* bot.entity.position, if bot.entity *)
  bot_pathfinder : bool;
  bot_health : R;
  bot_food : R;
  bot_players : list JsString;     (* Object.keys(bot.players) *)
  bot_name : JsString              (* bot.username *)
}.

Record Disk : Type := mkDisk {
  config_json : Config;            (* what config.json holds *)
  writable : bool                  (* whether fs.writeFileSync succeeds *)
}.

Record World : Type := mkWorld {
  config : Config;
  botState : BotState;
  bot : option Bot;                (* [let bot;] is undefined at first *)
  disk : Disk
}.

Definition initial_botState (cfg : Config) : BotState :=
  {| connected := false;
     position := mkVec3 0 0 0;
     center := mkVec3 (patrol_centerX cfg) (patrol_centerY cfg) (patrol_centerZ cfg);
     isPatrolling := false;
     currentTarget := None;
     health := 20;
     food := 20;
     lastChat := [];
     players := [];
     serverConfigured := false;
     switchingServers := false |}.

(** The state after the module has been loaded: the configuration is the
    one read from [config.json], no bot has been created. *)
Definition initial_world (cfg : Config) (can_write : bool) : World :=
  {| config := cfg;
     botState := initial_botState cfg;
     bot := None;
     disk := mkDisk cfg can_write |}.

(** Field updates. *)
Definition set_connected (b : bool) (s : BotState) : BotState :=
  mkBotState b (position s) (center s) (isPatrolling s) (currentTarget s)
    (health s) (food s) (lastChat s) (players s) (serverConfigured s)
    (switchingServers s).
Definition set_position (p : Vec3) (s : BotState) : BotState :=
  mkBotState (connected s) p (center s) (isPatrolling s) (currentTarget s)
    (health s) (food s) (lastChat s) (players s) (serverConfigured s)
    (switchingServers s).
Definition set_center (c : Vec3) (s : BotState) : BotState :=
  mkBotState (connected s) (position s) c (isPatrolling s) (currentTarget s)
    (health s) (food s) (lastChat s) (players s) (serverConfigured s)
    (switchingServers s).
Definition set_isPatrolling (b : bool) (s : BotState) : BotState :=
  mkBotState (connected s) (position s) (center s) b (currentTarget s)
    (health s) (food s) (lastChat s) (players s) (serverConfigured s)
    (switchingServers s).
Definition set_currentTarget (t : option Vec3) (s : BotState) : BotState :=
  mkBotState (connected s) (position s) (center s) (isPatrolling s) t
    (health s) (food s) (lastChat s) (players s) (serverConfigured s)
    (switchingServers s).
Definition set_health (h : R) (s : BotState) : BotState :=
  mkBotState (connected s) (position s) (center s) (isPatrolling s)
    (currentTarget s) h (food s) (lastChat s) (players s)
    (serverConfigured s) (switchingServers s).
Definition set_food (f : R) (s : BotState) : BotState :=
  mkBotState (connected s) (position s) (center s) (isPatrolling s)
    (currentTarget s) (health s) f (lastChat s) (players s)
    (serverConfigured s) (switchingServers s).
Definition set_players (l : list JsString) (s : BotState) : BotState :=
  mkBotState (connected s) (position s) (center s) (isPatrolling s)
    (currentTarget s) (health s) (food s) (lastChat s) l
    (serverConfigured s) (switchingServers s).
Definition set_serverConfigured (b : bool) (s : BotState) : BotState :=
  mkBotState (connected s) (position s) (center s) (isPatrolling s)
    (currentTarget s) (health s) (food s) (lastChat s) (players s) b
    (switchingServers s).
Definition set_switchingServers (b : bool) (s : BotState) : BotState :=
  mkBotState (connected s) (position s) (center s) (isPatrolling s)
    (currentTarget s) (health s) (food s) (lastChat s) (players s)
    (serverConfigured s) b.

Definition set_server (h : JsString) (p : R) (c : Config) : Config :=
  mkConfig h p (bot_username c) (patrol_radius c) (patrol_centerX c)
    (patrol_centerY c) (patrol_centerZ c).
Definition set_server_host (h : JsString) (c : Config) : Config :=
  set_server h (server_port c) c.
Definition set_server_port (p : R) (c : Config) : Config :=
  set_server (server_host c) p c.

(** ** HTTP responses *)

Inductive ErrorText : Type :=
| InvalidCoordinates | InvalidHost | InvalidPortNumber
| FailedToUpdateServer | FailedToDisconnect.

Inductive Payload : Type :=
| PCenter (c : Vec3)                 (* { success: true, center } *)
| PPatrol (b : bool)                 (* { success: true, isPatrolling } *)
| PServerUpdated                     (* { success: true, message } *)
| PDisconnected                      (* { success: true, message } *)
| PError (e : ErrorText).            (* { error } *)

Record Response : Type := mkResponse { status : N; payload : Payload }.

(** [res.json] answers with status 200 unless [res.status] was called. *)
Definition json (p : Payload) : Response := mkResponse 200 p.
Definition status_json (code : N) (p : Payload) : Response := mkResponse code p.

(** ** Effects *)

(** The [console.log] and [console.error] calls, without their arguments. *)
Inductive LogMsg : Type :=
| LSpawned | LCenterSetToSpawn | LAutoStartingPatrol
| LBotError
| LBotDisconnected | LAttemptingReconnect | LReconnectionFailed
| LNotAutoReconnecting
| LTeleportDetected | LOldCenter | LNewCenter
| LPathfinderNotAvailable | LReachedPosition | LMovementError
| LMovingToCenter
| LPatrolStopped | LPatrollingTo | LReachedPatrolPoint | LReturningToCenter
| LReturnedToCenter | LContinuingPatrol | LPatrolLoopEnded | LPatrolError
| LRetryingPatrol | LNotRetryingPatrol
| LStartingPatrol | LPatrolStoppedByUser
| LSwitchingServer | LErrorUpdatingServer
| LUserRequestedDisconnect | LErrorDisconnecting.

(** The places where [patrol] is suspended. *)
Inductive PatrolPoint : Type :=
| AwaitMove1 (target : Vec3)   (* await moveToPosition(randomPoint) *)
| AwaitSleep2                  (* await the 2000 ms promise *)
| AwaitMove2 (target : Vec3)   (* await moveToCenter() *)
| AwaitSleep3.                 (* await the 3000 ms promise *)

(** The callbacks handed to [setTimeout]. *)
Inductive Task : Type :=
| TAutoStart                   (* spawn: log, startPatrolling() *)
| TReconnect                   (* end: try createNewBot(), retry later *)
| TCreateNewBot                (* end, after a failed reconnection *)
| TConnectNewServer            (* update-server: serverConfigured, createNewBot() *)
| TPatrol                      (* patrol: setTimeout(patrol, 3000) *)
| TResolveSleep2               (* patrol: resolve of the 2000 ms promise *)
| TResolveSleep3.              (* patrol: resolve of the 3000 ms promise *)

Inductive QuitReason : Type := QSwitchingServers | QUserRequested.

Inductive Effect : Type :=
| ELog (m : LogMsg)
| ESetTimeout (t : Task) (ms : N)
| EGoto (target : Vec3) (range : N)  (* bot.pathfinder.goto(new GoalNear(x, y, z, range)) *)
| ESetMovements                      (* bot.pathfinder.setMovements(new Movements(bot)) *)
| ECreateBot (host : JsString) (port : R) (username : JsString)
| EQuit (r : QuitReason)
| EWriteConfig (c : Config)          (* fs.writeFileSync('config.json', ...) *)
| ERespond (r : Response)            (* the answer to an HTTP request *)
| EUncaught.                         (* an exception or rejection nobody handles *)

(** ** The monad of the script *)

Inductive Outcome (A : Type) : Type :=
| Returned (a : A)
| Thrown.
Arguments Returned {A} a.
Arguments Thrown {A}.

Definition Js (A : Type) : Type := World -> Outcome A * World * list Effect.

Definition outcome {A} (r : Outcome A * World * list Effect) : Outcome A := r.1.1.
Definition world {A} (r : Outcome A * World * list Effect) : World := r.1.2.
Definition effects {A} (r : Outcome A * World * list Effect) : list Effect := r.2.

#[global] Instance Js_ret : MRet Js := fun A a w => (Returned a, w, []).

#[global] Instance Js_bind : MBind Js := fun A B f m w =>
  match m w with
  | (Returned a, w1, e1) =>
      match f a w1 with (r, w2, e2) => (r, w2, e1 ++ e2) end
  | (Thrown, w1, e1) => (Thrown, w1, e1)
  end.

Definition throw {A} : Js A := fun w => (Thrown, w, []).

(** [try { m } catch (error) { h }]. *)
Definition try_catch {A} (m : Js A) (h : Js A) : Js A := fun w =>
  match m w with
  | (Returned a, w1, e1) => (Returned a, w1, e1)
  | (Thrown, w1, e1) =>
      match h w1 with (r, w2, e2) => (r, w2, e1 ++ e2) end
  end.

Definition emit (e : Effect) : Js unit := fun w => (Returned tt, w, [e]).
Definition log (m : LogMsg) : Js unit := emit (ELog m).
Definition setTimeout (t : Task) (ms : N) : Js unit := emit (ESetTimeout t ms).

Definition get_botState : Js BotState := fun w => (Returned (botState w), w, []).
Definition get_config : Js Config := fun w => (Returned (config w), w, []).
Definition get_bot : Js (option Bot) := fun w => (Returned (bot w), w, []).

Definition update_botState (f : BotState -> BotState) : Js unit := fun w =>
  (Returned tt, mkWorld (config w) (f (botState w)) (bot w) (disk w), []).
Definition update_config (f : Config -> Config) : Js unit := fun w =>
  (Returned tt, mkWorld (f (config w)) (botState w) (bot w) (disk w), []).
Definition assign_bot (b : Bot) : Js unit := fun w =>
  (Returned tt, mkWorld (config w) (botState w) (Some b) (disk w), []).

(** Reading a property of [bot] throws a TypeError while [bot] is
    undefined. *)
Definition the_bot : Js Bot :=
  ob ← get_bot;
  match ob with
  | Some b => mret b
  | None => throw
  end.

(** A call of an async function whose promise is dropped: a rejection is
    an unhandled rejection. *)
Definition detached {A} (m : Js A) : Js unit :=
  try_catch (m;; mret tt) (emit EUncaught).

(** [fs.writeFileSync('config.json', JSON.stringify(config, null, 2))]. *)
Definition writeConfigFile : Js unit := fun w =>
  if writable (disk w)
  then (Returned tt,
        mkWorld (config w) (botState w) (bot w) (mkDisk (config w) true),
        [EWriteConfig (config w)])
  else (Thrown, w, []).

(** ** The functions of the script *)

(** [createNewBot].  [made] is what [mineflayer.createBot] does with the
    options it is given: [None] when it throws, otherwise the new bot
    object, on which [setupBotEvents] loads the pathfinder plugin and
    registers the handlers below. *)
Definition createNewBot (made : option Bot) : Js unit :=
  cfg ← get_config;
  emit (ECreateBot (server_host cfg) (server_port cfg) (bot_username cfg));;
  match made with
  | Some b => assign_bot b
  | None => throw
  end.

(** Horizontal distance, as the move handler computes it. *)
Definition xz_distance (p c : Vec3) : R :=
  sqrt ((vx p - vx c) ^ 2 + (vz p - vz c) ^ 2).

(** [getRandomPoint]; [u] and [v] are the results of its first and second
    call of [Math.random]. *)
Definition getRandomPoint (u v : R) : Js Vec3 :=
  cfg ← get_config;
  s ← get_botState;
  let radius := patrol_radius cfg in
  let angle := (u * 2 * PI)%R in
  let distance := (v * radius)%R in
  mret {| vx := vx (center s) + cos angle * distance;
          vy := vy (center s);
          vz := vz (center s) + sin angle * distance |}.

Inductive Settled : Type := Fulfilled | Rejected.

(** How far the synchronous part of [moveToPosition] gets. *)
Inductive MovePhase : Type :=
| MoveReturned                (* no pathfinder: the promise is fulfilled *)
| MoveAwaitingGoto.           (* suspended at [await bot.pathfinder.goto] *)

(** [moveToPosition], from the call to its [await]. *)
Definition moveToPosition (target : Vec3) : Js MovePhase :=
  b ← the_bot;
  if negb (bot_pathfinder b)
  then log LPathfinderNotAvailable;; mret MoveReturned
  else
    update_botState (set_currentTarget (Some target));;
    emit (EGoto target 1);;
    mret MoveAwaitingGoto.

(** [moveToPosition], once [goto] has settled: its own [catch] takes the
    rejection, so its promise is fulfilled either way. *)
Definition moveToPosition_resume (target : Vec3) (s : Settled) : Js unit :=
  match s with
  | Fulfilled => log LReachedPosition
  | Rejected => log LMovementError
  end.

Definition moveToCenter : Js MovePhase :=
  log LMovingToCenter;;
  s ← get_botState;
  moveToPosition (center s).

(** Where a call of [patrol] stands when it gives the control back. *)
Inductive PatrolStatus : Type :=
| Suspended (k : PatrolPoint)
| Completed.

(** The [catch] block of [patrol]. *)
Definition patrol_catch : Js PatrolStatus :=
  log LPatrolError;;
  s ← get_botState;
  (if connected s && isPatrolling s
   then log LRetryingPatrol;; setTimeout TPatrol 3000
   else log LNotRetryingPatrol);;
  mret Completed.

(** The statements of the [try] block between two suspensions. *)
Definition patrol_after_move1 : Js PatrolStatus :=
  log LReachedPatrolPoint;;
  setTimeout TResolveSleep2 2000;;
  mret (Suspended AwaitSleep2).

Definition patrol_after_move2 : Js PatrolStatus :=
  log LReturnedToCenter;;
  setTimeout TResolveSleep3 3000;;
  mret (Suspended AwaitSleep3).

Definition patrol_after_sleep2 : Js PatrolStatus :=
  log LReturningToCenter;;
  s ← get_botState;
  ph ← moveToCenter;
  match ph with
  | MoveReturned => patrol_after_move2
  | MoveAwaitingGoto => mret (Suspended (AwaitMove2 (center s)))
  end.

(** The [try] block of [patrol], from its start to the first suspension. *)
Definition patrol_try (u v : R) : Js PatrolStatus :=
  randomPoint ← getRandomPoint u v;
  log LPatrollingTo;;
  ph ← moveToPosition randomPoint;
  match ph with
  | MoveReturned => patrol_after_move1
  | MoveAwaitingGoto => mret (Suspended (AwaitMove1 randomPoint))
  end.

(** [patrol], from the call to its first suspension. *)
Definition patrol (u v : R) : Js PatrolStatus :=
  s ← get_botState;
  if negb (connected s) || negb (isPatrolling s)
  then log LPatrolStopped;; mret Completed
  else try_catch (patrol_try u v) patrol_catch.

(** The [try] block of [patrol], resumed at [k]; [s] is how the awaited
    promise settled.  The recursive call at the end of the block starts a
    new call of [patrol], whose promise is dropped; the status returned is
    then the one of that new call, the old one being over. *)
Definition patrol_try_resume (k : PatrolPoint) (s : Settled) (u v : R)
  : Js PatrolStatus :=
  match k with
  | AwaitMove1 target =>
      moveToPosition_resume target s;;
      patrol_after_move1
  | AwaitSleep2 =>
      patrol_after_sleep2
  | AwaitMove2 target =>
      moveToPosition_resume target s;;
      patrol_after_move2
  | AwaitSleep3 =>
      st ← get_botState;
      if connected st && isPatrolling st
      then log LContinuingPatrol;; patrol u v
      else log LPatrolLoopEnded;; mret Completed
  end.

Definition patrol_resume (k : PatrolPoint) (s : Settled) (u v : R)
  : Js PatrolStatus :=
  try_catch (patrol_try_resume k s u v) patrol_catch.

Definition startPatrolling (u v : R) : Js unit :=
  s ← get_botState;
  if connected s && negb (isPatrolling s)
  then
    update_botState (set_isPatrolling true);;
    log LStartingPatrol;;
    detached (patrol u v)
  else mret tt.

Definition stopPatrolling : Js unit :=
  update_botState (set_isPatrolling false);;
  log LPatrolStoppedByUser.

(** ** The handlers of the bot events *)

Definition on_spawn : Js unit :=
  log LSpawned;;
  update_botState (set_connected true);;
  b ← the_bot;
  match bot_entity b with
  | None => throw             (* bot.entity.position of an undefined entity *)
  | Some p =>
      update_botState (set_center p);;
      log LCenterSetToSpawn;;
      (if bot_pathfinder b then emit ESetMovements else throw);;
      setTimeout TAutoStart 2000
  end.

Definition on_error : Js unit :=
  log LBotError;;
  update_botState (set_connected false);;
  update_botState (set_isPatrolling false).

Definition on_end : Js unit :=
  log LBotDisconnected;;
  update_botState (set_connected false);;
  update_botState (set_isPatrolling false);;
  s ← get_botState;
  if negb (switchingServers s)
  then setTimeout TReconnect 5000
  else
    log LNotAutoReconnecting;;
    update_botState (set_switchingServers false).

Definition round_position (p : Vec3) : Vec3 :=
  {| vx := Math_round (vx p * 10) / 10;
     vy := Math_round (vy p * 10) / 10;
     vz := Math_round (vz p * 10) / 10 |}.

(** [botState.center] always holds an object, which is truthy: the first
    conjunct of the guard of the teleport check is the constant [true]. *)
Definition on_move : Js unit :=
  b ← the_bot;
  match bot_entity b with
  | None => mret tt
  | Some p =>
      let newPosition := round_position p in
      s ← get_botState;
      cfg ← get_config;
      (if true && connected s
       then
         let distance :=
           sqrt ((vx newPosition - vx (center s)) ^ 2
                 + (vz newPosition - vz (center s)) ^ 2) in
         if bool_decide (distance > patrol_radius cfg + 2)%R
         then
           log LTeleportDetected;;
           log LOldCenter;;
           update_botState (set_center newPosition);;
           log LNewCenter
         else mret tt
       else mret tt);;
      update_botState (set_position newPosition)
  end.

Definition on_health : Js unit :=
  b ← the_bot;
  update_botState (set_health (bot_health b));;
  update_botState (set_food (bot_food b)).

Definition updatePlayerList : Js unit :=
  b ← the_bot;
  update_botState
    (set_players
       (List.filter (fun name => negb (bool_decide (name = bot_name b)))
                    (bot_players b))).

(** ** The HTTP endpoints *)

(** [POST /api/set-center]. *)
Definition api_set_center (body : gmap string JsVal) : Js Response :=
  let x := prop body "x" in
  let y := prop body "y" in
  let z := prop body "z" in
  if bool_decide (typeof x = TyNumber) && bool_decide (typeof y = TyNumber)
     && bool_decide (typeof z = TyNumber)
  then
    update_botState
      (set_center {| vx := as_number x; vy := as_number y; vz := as_number z |});;
    detached moveToCenter;;
    s ← get_botState;
    mret (json (PCenter (center s)))
  else mret (status_json 400 (PError InvalidCoordinates)).

(** [POST /api/toggle-patrol]. *)
Definition api_toggle_patrol (u v : R) : Js Response :=
  s ← get_botState;
  (if isPatrolling s then stopPatrolling else startPatrolling u v);;
  s' ← get_botState;
  mret (json (PPatrol (isPatrolling s'))).

(** [POST /api/update-server]. *)
Definition api_update_server (body : gmap string JsVal) : Js Response :=
  let host := prop body "host" in
  let port := prop body "port" in
  if negb (truthy host) || negb (bool_decide (typeof host = TyString))
     || bool_decide (trim (as_string host) = [])
  then mret (status_json 400 (PError InvalidHost))
  else if negb (truthy port) || negb (bool_decide (typeof port = TyNumber))
          || bool_decide (as_number port < 1)%R
          || bool_decide (as_number port > 65535)%R
  then mret (status_json 400 (PError InvalidPortNumber))
  else
    try_catch
      (update_config (set_server_host (trim (as_string host)));;
       update_config (set_server_port (as_number port));;
       writeConfigFile;;
       update_botState (set_switchingServers true);;
       ob ← get_bot;
       match ob with
       | Some _ =>
           log LSwitchingServer;;
           update_botState (set_connected false);;
           update_botState (set_isPatrolling false);;
           emit (EQuit QSwitchingServers)
       | None => mret tt
       end;;
       setTimeout TConnectNewServer 2000;;
       mret (json PServerUpdated))
      (log LErrorUpdatingServer;;
       mret (status_json 500 (PError FailedToUpdateServer))).

(** [POST /api/disconnect]. *)
Definition api_disconnect : Js Response :=
  try_catch
    (log LUserRequestedDisconnect;;
     update_botState (set_serverConfigured false);;
     update_botState (set_connected false);;
     update_botState (set_isPatrolling false);;
     update_botState (set_switchingServers true);;
     ob ← get_bot;
     match ob with
     | Some _ => emit (EQuit QUserRequested)
     | None => mret tt
     end;;
     mret (json PDisconnected))
    (log LErrorDisconnecting;;
     mret (status_json 500 (PError FailedToDisconnect))).

(** ** The status endpoint *)

(** What [GET /api/bot-status] answers. *)
Record StatusReport : Type := mkStatusReport {
  st_connected : bool;
  st_serverConfigured : bool;
  st_position : Vec3;
  st_center : Vec3;
  st_isPatrolling : bool;
  st_health : R;
  st_food : R;
  st_lastChat : JsString;
  st_players : list JsString;
  st_uptime : R;
  st_host : JsString;              (* currentServer.host *)
  st_port : R                      (* currentServer.port *)
}.

(** [GET /api/bot-status].  [now] is [Date.now()]; [ping] is
    [bot.player.ping], and [None] as long as [bot.player] is undefined. *)
Definition api_bot_status (now : R) (ping : option R) : Js StatusReport :=
  s ← get_botState;
  cfg ← get_config;
  ob ← get_bot;
  mret {| st_connected := connected s;
          st_serverConfigured := serverConfigured s;
          st_position := position s;
          st_center := center s;
          st_isPatrolling := isPatrolling s;
          st_health := health s;
          st_food := food s;
          st_lastChat := lastChat s;
          st_players := players s;
          st_uptime := match ob, ping with
                       | Some _, Some p => (now - p)%R
                       | _, _ => 0%R
                       end;
          st_host := server_host cfg;
          st_port := server_port cfg |}.

(** The report of the status endpoint in a world. *)
Definition status_report (now : R) (ping : option R) (w : World)
  : option StatusReport :=
  match outcome (api_bot_status now ping w) with
  | Returned rep => Some rep
  | Thrown => None
  end.

(** ** The event loop *)

(** What a callback may draw from the environment while it runs: the
    result of [mineflayer.createBot] and two results of [Math.random]. *)
Record Inputs : Type := mkInputs {
  made : option Bot;
  rand1 : R;
  rand2 : R
}.

(** The callbacks handed to [setTimeout], when their timer fires. *)
Definition run_task (t : Task) (i : Inputs) : Js unit :=
  match t with
  | TAutoStart =>
      log LAutoStartingPatrol;;
      startPatrolling (rand1 i) (rand2 i)
  | TReconnect =>
      log LAttemptingReconnect;;
      try_catch
        (createNewBot (made i))
        (log LReconnectionFailed;; setTimeout TCreateNewBot 10000)
  | TCreateNewBot =>
      createNewBot (made i)
  | TConnectNewServer =>
      update_botState (set_serverConfigured true);;
      createNewBot (made i)
  | TPatrol =>
      detached (patrol (rand1 i) (rand2 i))
  | TResolveSleep2 =>
      detached (patrol_resume AwaitSleep2 Fulfilled (rand1 i) (rand2 i))
  | TResolveSleep3 =>
      detached (patrol_resume AwaitSleep3 Fulfilled (rand1 i) (rand2 i))
  end.

(** Everything that can make the script run.  The events are the ones of
    the environment, with no assumption on when they come: a timer may fire
    that was never set, a [goto] may settle that was never called.  What
    holds for every sequence of events holds for the ones the environment
    really produces. *)
Inductive Event : Type :=
| EvSpawn | EvError | EvEnd | EvMove | EvHealth
| EvPlayerJoined | EvPlayerLeft
| EvBotChanged (b : Bot)                 (* the library updates its bot object *)
| EvDiskChanged (can_write : bool)
| EvTimer (t : Task)
| EvPatrolMoveSettled (k : PatrolPoint) (s : Settled)
| EvCenterMoveSettled (target : Vec3) (s : Settled)
| EvSetCenter (body : gmap string JsVal)
| EvTogglePatrol
| EvUpdateServer (body : gmap string JsVal)
| EvDisconnect.

Definition respond (m : Js Response) : Js unit :=
  r ← m; emit (ERespond r).

Definition callback (ev : Event) (i : Inputs) : Js unit :=
  match ev with
  | EvSpawn => on_spawn
  | EvError => on_error
  | EvEnd => on_end
  | EvMove => on_move
  | EvHealth => on_health
  | EvPlayerJoined | EvPlayerLeft => updatePlayerList
  | EvBotChanged b =>
      ob ← get_bot;
      match ob with Some _ => assign_bot b | None => mret tt end
  | EvDiskChanged can_write => fun w =>
      (Returned tt,
       mkWorld (config w) (botState w) (bot w)
               (mkDisk (config_json (disk w)) can_write), [])
  | EvTimer t => run_task t i
  | EvPatrolMoveSettled k s =>
      detached (patrol_resume k s (rand1 i) (rand2 i))
  | EvCenterMoveSettled target s => moveToPosition_resume target s
  | EvSetCenter body => respond (api_set_center body)
  | EvTogglePatrol => respond (api_toggle_patrol (rand1 i) (rand2 i))
  | EvUpdateServer body => respond (api_update_server body)
  | EvDisconnect => respond (api_disconnect)
  end.

(** One turn of the event loop: an exception that leaves the callback is
    uncaught.  The script's [uncaughtException] handler throws it again and
    the process ends; the model goes on, which only adds behaviours. *)
Definition handle (ev : Event) (i : Inputs) (w : World) : World * list Effect :=
  match callback ev i w with
  | (Returned _, w', es) => (w', es)
  | (Thrown, w', es) => (w', es ++ [EUncaught])
  end.

Fixpoint run (evs : list (Event * Inputs)) (w : World) : World * list Effect :=
  match evs with
  | [] => (w, [])
  | (ev, i) :: evs' =>
      let '(w1, es1) := handle ev i w in
      let '(w2, es2) := run evs' w1 in
      (w2, es1 ++ es2)
  end.

(** ** Sample data *)

Definition sample_config : Config :=
  {| server_host := js "localhost";
     server_port := 25565;
     bot_username := js "PatrolBot";
     patrol_radius := 5;
     patrol_centerX := 0;
     patrol_centerY := 64;
     patrol_centerZ := 0 |}.

Definition sample_bot : Bot :=
  {| bot_entity := Some (mkVec3 (1004 / 100) 64 0);
     bot_pathfinder := true;
     bot_health := 20;
     bot_food := 20;
     bot_players := [js "PatrolBot"; js "Steve"];
     bot_name := js "PatrolBot" |}.

(** A world in which the bot is connected and stands 10.04 blocks east of
    the configured center. *)
Definition sample_world : World :=
  {| config := sample_config;
     botState := set_connected true (initial_botState sample_config);
     bot := Some sample_bot;
     disk := mkDisk sample_config true |}.

(** ** Vocabulary of the properties *)

(** The bot state a move event leaves, when the entity stands at [p]. *)
Definition moved (w : World) (p : Vec3) : BotState :=
  let np := round_position p in
  set_position np
    (if connected (botState w)
        && bool_decide (xz_distance np (center (botState w))
                        > patrol_radius (config w) + 2)%R
     then set_center np (botState w)
     else botState w).

(** A world in which the bot has wandered to a point inside the patrol
    area. *)
Definition nearby_world : World :=
  {| config := sample_config;
     botState := set_connected true (initial_botState sample_config);
     bot := Some (mkBot (Some (mkVec3 (326 / 100) 64 (-4))) true 20 20 [] (js "PatrolBot"));
     disk := mkDisk sample_config true |}.

Definition with_botState (s : BotState) (w : World) : World :=
  mkWorld (config w) s (bot w) (disk w).

(** The [setTimeout] calls among the effects, in order. *)
Definition timeouts (es : list Effect) : list (Task * N) :=
  omap (fun e => match e with
                 | ESetTimeout t ms => Some (t, ms)
                 | _ => None
                 end) es.

(** The [mineflayer.createBot] calls among the effects: host and port. *)
Definition connections (es : list Effect) : list (JsString * R) :=
  omap (fun e => match e with
                 | ECreateBot h p _ => Some (h, p)
                 | _ => None
                 end) es.

(** The HTTP answer of a request, if its handler returns one. *)
Definition answer (r : Outcome Response * World * list Effect) : option Response :=
  match outcome r with
  | Returned resp => Some resp
  | Thrown => None
  end.

(** The invariant of the bot state: no patrol without a connection. *)
Definition patrolling_connected (w : World) : Prop :=
  isPatrolling (botState w) = true -> connected (botState w) = true.

(** A host that is a string and is not empty once trimmed. *)
Definition valid_host (v : JsVal) : Prop :=
  exists s : JsString, v = JStr s /\ trim s <> [].

(** A port that is a number from 1 to 65535. *)
Definition valid_port (v : JsVal) : Prop :=
  exists p : R, v = JNum p /\ (1 <= p <= 65535)%R.

Definition valid_switch (body : gmap string JsVal) : Prop :=
  valid_host (prop body "host") /\ valid_port (prop body "port").

(** A server switch that succeeds: the answer is the success message, the
    configuration holds the new server, [config.json] holds the
    configuration, and the connection to the new server is scheduled. *)
Definition switch_succeeds (body : gmap string JsVal) (w : World) : Prop :=
  let r := api_update_server body w in
  answer r = Some (json PServerUpdated)
  /\ server_host (config (world r)) = trim (as_string (prop body "host"))
  /\ server_port (config (world r)) = as_number (prop body "port")
  /\ config_json (disk (world r)) = config (world r)
  /\ timeouts (effects r) = [(TConnectNewServer, 2000%N)].

(** The request [{ host: " play.example.net ", port: 25566 }]. *)
Definition sample_switch : gmap string JsVal :=
  <["host" := JStr (js " play.example.net ")]>
    (<["port" := JNum 25566]> ∅).

(** The sample world on a disk that refuses the write of [config.json]. *)
Definition readonly_world : World :=
  mkWorld (config sample_world) (botState sample_world) (bot sample_world)
    (mkDisk sample_config false).

(** The point [getRandomPoint] returns. *)
Definition random_point (u v : R) (w : World) : Vec3 :=
  match outcome (getRandomPoint u v w) with
  | Returned p => p
  | Thrown => center (botState w)
  end.


(** The guard of the patrol loop. *)
Definition patrol_on (w : World) : bool :=
  connected (botState w) && isPatrolling (botState w).

(** The sample world, patrolling. *)
Definition patrolling_world : World :=
  with_botState (set_isPatrolling true (botState sample_world)) sample_world.

(** A world that claims a connection although no bot was ever created: the
    one kind of world in which the body of [patrol] throws. *)
Definition botless_world : World :=
  mkWorld sample_config
    (set_isPatrolling true (set_connected true (initial_botState sample_config)))
    None (mkDisk sample_config true).

(** The moves started and the timers set among the effects, in order. *)
Definition timeouts_and_moves (es : list Effect) : list Effect :=
  List.filter (fun e => match e with
                        | ESetTimeout _ _ | EGoto _ _ => true
                        | _ => false
                        end) es.

Definition is_number (v : JsVal) : Prop := exists r : R, v = JNum r.

(** The request [{ x: 12.5, y: 70, z: -3 }] and a request without [z]. *)
Definition sample_center : gmap string JsVal :=
  <["x" := JNum (25 / 2)]> (<["y" := JNum 70]> (<["z" := JNum (-3)]> ∅)).

Definition partial_center : gmap string JsVal :=
  <["x" := JNum (25 / 2)]> (<["y" := JStr (js "70")]> ∅).


(** The targets of the [goto] calls among the effects, in order. *)
Definition gotos (es : list Effect) : list Vec3 :=
  omap (fun e => match e with
                 | EGoto t _ => Some t
                 | _ => None
                 end) es.

(** The rest of a call of [patrol] that is suspended at [k], when no
    other callback runs in between and every awaited promise settles as
    [s]: the world it leaves and what it emits, if [fuel] resumptions
    bring it to its end. *)
Fixpoint patrol_rest (fuel : nat) (k : PatrolPoint) (s : Settled) (u v : R)
    (w : World) : option (World * list Effect) :=
  match fuel with
  | O => None
  | S fuel' =>
      match patrol_resume k s u v w with
      | (Returned Completed, w', es) => Some (w', es)
      | (Returned (Suspended k'), w', es) =>
          match patrol_rest fuel' k' s u v w' with
          | Some (w'', es') => Some (w'', es ++ es')
          | None => None
          end
      | (Thrown, _, _) => None
      end
  end.

(** [config.json] holds the configuration of the script, and can be
    written. *)
Definition config_saved (w : World) : Prop :=
  config_json (disk w) = config w /\ writable (disk w) = true.

(** * Properties *)

(** ** Running a computation *)

Ltac js_unfold :=
  cbv beta iota delta
    [mbind mret Js_bind Js_ret throw try_catch emit log setTimeout
     get_botState get_config get_bot update_botState update_config
     assign_bot the_bot detached writeConfigFile respond
     outcome world effects json status_json].

Ltac js_step :=
  js_unfold;
  cbn [fst snd app negb andb orb
       config botState bot disk config_json writable
       connected position center isPatrolling currentTarget health food
       lastChat players serverConfigured switchingServers
       server_host server_port bot_username patrol_radius
       set_connected set_position set_center set_isPatrolling
       set_currentTarget set_health set_food set_players
       set_serverConfigured set_switchingServers
       set_server set_server_host set_server_port
       status payload vx vy vz].

(** Evaluation by cases: the scrutinee of an innermost [match] is
    destructed, until the computation has run. *)
Ltac js_case :=
  match goal with
  | |- context [match ?x with _ => _ end] =>
      lazymatch x with
      | context [match _ with _ => _ end] => fail
      | _ => destruct x eqn:?
      end
  end.

Ltac js_eval := js_step; repeat (js_case; js_step).

Ltac js_handlers :=
  unfold handle, callback, run_task, on_spawn, on_error, on_end, on_move,
    on_health, updatePlayerList, api_set_center, api_toggle_patrol,
    api_update_server, api_disconnect, startPatrolling, stopPatrolling,
    patrol_resume, patrol_try_resume, patrol, patrol_try, patrol_catch,
    patrol_after_sleep2, patrol_after_move1, patrol_after_move2,
    moveToCenter, moveToPosition, moveToPosition_resume, getRandomPoint,
    createNewBot.

(** ** JavaScript values *)

Example trim_sample :
  trim (js "  mc.example.org ") = js "mc.example.org"
  /\ trim [9; 160; 8232; 65279]%N = []
  /\ trim (js "a b") = js "a b".
Proof. repeat split. Qed.

Lemma trim_nil : trim [] = [].
Proof. reflexivity. Qed.

Example falsy_values :
  truthy JUndefined = false /\ truthy JNull = false
  /\ truthy (JNum 0) = false /\ truthy (JStr []) = false
  /\ truthy (JBool false) = false.
Proof.
  repeat split; cbn; rewrite bool_decide_eq_true_2; reflexivity.
Qed.

Example truthy_values :
  truthy (JNum 25565) = true /\ truthy (JStr (js "0")) = true
  /\ truthy JObj = true.
Proof.
  repeat split; cbn; try reflexivity.
  rewrite bool_decide_eq_false_2; [reflexivity | lra].
Qed.

(** ** Random patrol points *)

Section RandomPoint.
Local Open Scope R_scope.



End RandomPoint.



(** ** Teleport detection *)

Section Move.
Local Open Scope R_scope.

Lemma on_move_run (w : World) (b : Bot) (p : Vec3) :
  bot w = Some b ->
  bot_entity b = Some p ->
  outcome (on_move w) = Returned tt
  /\ world (on_move w) = mkWorld (config w) (moved w p) (bot w) (disk w).
Proof.
  intros Hb Hp. unfold on_move, moved, xz_distance. js_step.
  rewrite Hb, Hp. js_step.
  destruct (connected (botState w)); js_step;
    [case_bool_decide; js_step|]; rewrite ?Hb; done.
Qed.

(** Without an entity the handler does nothing. *)
Lemma on_move_no_entity (w : World) (b : Bot) :
  bot w = Some b ->
  bot_entity b = None ->
  on_move w = (Returned tt, w, []).
Proof.
  intros Hb Hp. unfold on_move. js_step. rewrite Hb, Hp. reflexivity.
Qed.
End Move.

Section MoveClaims.
Local Open Scope R_scope.


Lemma Math_round_eq (z : Z) (x : R) :
  IZR z - / 2 <= x < IZR z + / 2 -> Math_round x = IZR z.
Proof.
  intros H. unfold Math_round. f_equal. apply Zfloor_eq. lra.
Qed.

(** Ties go up, also below zero: [Math.round(2.5)] is 3 and
    [Math.round(-2.5)] is -2. *)
Example Math_round_ties :
  Math_round (5 / 2) = 3 /\ Math_round (- 5 / 2) = -2.
Proof. split; apply Math_round_eq; lra. Qed.

Example round_position_sample :
  round_position (mkVec3 (1004 / 100) 64 0) = mkVec3 10 64 0.
Proof.
  unfold round_position; cbn [vx vy vz].
  rewrite (Math_round_eq 100), (Math_round_eq 640), (Math_round_eq 0) by lra.
  f_equal; lra.
Qed.

(** The bot is found 10 blocks from the center, further than the radius
    of 5 plus 2: the center follows it. *)
Example teleport_detected :
  botState (world (on_move sample_world))
  = set_position (mkVec3 10 64 0)
      (set_center (mkVec3 10 64 0) (botState sample_world)).
Proof.
  destruct (on_move_run sample_world sample_bot _ eq_refl eq_refl) as [_ ->].
  cbn [botState]. unfold moved. rewrite round_position_sample.
  rewrite bool_decide_eq_true_2; [reflexivity|].
  unfold xz_distance; cbn.
  replace ((10 - 0) * ((10 - 0) * 1) + (0 - 0) * ((0 - 0) * 1)) with (Rsqr 10)
    by (unfold Rsqr; ring).
  rewrite sqrt_Rsqr by lra. lra.
Qed.

(** The bot is found about 5.2 blocks from the center, within the radius
    of 5 plus 2: the center stays. *)
Example no_teleport_nearby :
  botState (world (on_move nearby_world))
  = set_position (mkVec3 (33 / 10) 64 (-4)) (botState nearby_world).
Proof.
  destruct (on_move_run nearby_world _ _ eq_refl eq_refl) as [_ ->].
  cbn [botState]. unfold moved.
  assert (round_position (mkVec3 (326 / 100) 64 (-4)) = mkVec3 (33 / 10) 64 (-4))
    as ->.
  { unfold round_position; cbn [vx vy vz].
    rewrite (Math_round_eq 33), (Math_round_eq 640), (Math_round_eq (-40)) by lra.
    f_equal; lra. }
  rewrite bool_decide_eq_false_2; [reflexivity|].
  unfold xz_distance; cbn. apply Rle_not_gt.
  apply Rle_trans with (sqrt (Rsqr 7)).
  - apply sqrt_le_1_alt. unfold Rsqr. lra.
  - rewrite sqrt_Rsqr by lra. lra.
Qed.
End MoveClaims.



(** ** The end of a connection *)

Lemma on_end_run (w : World) :
  on_end w =
    if switchingServers (botState w)
    then (Returned tt,
          with_botState
            (set_switchingServers false
               (set_isPatrolling false (set_connected false (botState w)))) w,
          [ELog LBotDisconnected; ELog LNotAutoReconnecting])
    else (Returned tt,
          with_botState
            (set_isPatrolling false (set_connected false (botState w))) w,
          [ELog LBotDisconnected; ESetTimeout TReconnect 5000]).
Proof. unfold on_end. js_step. destruct (switchingServers _); reflexivity. Qed.

(** The reconnection task calls [createNewBot] with the server of the
    configuration of that moment. *)
Lemma reconnect_task_run (i : Inputs) (w : World) :
  exists es,
    effects (run_task TReconnect i w)
    = ELog LAttemptingReconnect
        :: ECreateBot (server_host (config w)) (server_port (config w))
             (bot_username (config w)) :: es.
Proof.
  unfold run_task, createNewBot. js_step.
  destruct (made i); js_step; eexists; reflexivity.
Qed.

(** Each event except the end of the connection leaves a raised
    [switchingServers] flag raised. *)
Lemma handle_keeps_switching (ev : Event) (i : Inputs) (w : World) :
  ev <> EvEnd ->
  switchingServers (botState w) = true ->
  switchingServers (botState (handle ev i w).1) = true.
Proof.
  intros Hev Hs.
  destruct ev as [| | | | | | | | |t|k| | | | |]; try congruence;
    try destruct t; try destruct k;
    js_handlers; js_eval; cbn; congruence.
Qed.

Lemma run_keeps_switching (evs : list (Event * Inputs)) (w : World) :
  Forall (fun e => e.1 <> EvEnd) evs ->
  switchingServers (botState w) = true ->
  switchingServers (botState (run evs w).1) = true.
Proof.
  intros Hevs. revert w.
  induction Hevs as [|[ev i] evs Hev _ IH]; intros w Hs; [exact Hs|].
  cbn [run]. pose proof (handle_keeps_switching ev i w Hev Hs) as Hs1.
  destruct (handle ev i w) as [w1 es1]. specialize (IH w1 Hs1).
  destruct (run evs w1) as [w2 es2]. exact IH.
Qed.

(** A server switch that is answered with a success leaves the flag
    raised. *)
Lemma update_server_raises_flag (body : gmap string JsVal) (w : World) (resp : Response) :
  answer (api_update_server body w) = Some resp ->
  status resp = 200%N ->
  switchingServers (botState (world (api_update_server body w))) = true.
Proof.
  unfold answer, api_update_server.
  js_eval; cbn; try congruence; intros [= <-]; discriminate.
Qed.

(** Only the server switch writes the server of the configuration, and
    every bot is created for the server the configuration holds. *)
Lemma handle_server (ev : Event) (i : Inputs) (w : World) :
  (forall body, ev <> EvUpdateServer body) ->
  server_host (config (handle ev i w).1) = server_host (config w)
  /\ server_port (config (handle ev i w).1) = server_port (config w)
  /\ Forall (fun c => c = (server_host (config w), server_port (config w)))
       (connections (handle ev i w).2).
Proof.
  intros Hev.
  destruct ev as [| | | | | | | | |t|k| | | |body|];
    try (now destruct (Hev body));
    try destruct t; try destruct k;
    js_handlers; js_eval; cbn; repeat split; repeat constructor.
Qed.

Lemma run_server (evs : list (Event * Inputs)) (w : World) :
  Forall (fun e => forall body, e.1 <> EvUpdateServer body) evs ->
  server_host (config (run evs w).1) = server_host (config w)
  /\ server_port (config (run evs w).1) = server_port (config w)
  /\ Forall (fun c => c = (server_host (config w), server_port (config w)))
       (connections (run evs w).2).
Proof.
  intros Hevs. revert w.
  induction Hevs as [|[ev i] evs Hev _ IH]; intros w.
  { cbn. repeat split. constructor. }
  cbn [run]. destruct (handle_server ev i w Hev) as (Hh & Hp & Hc).
  destruct (handle ev i w) as [w1 es1]. cbn [fst snd] in Hh, Hp, Hc.
  destruct (IH w1) as (Hh1 & Hp1 & Hc1).
  destruct (run evs w1) as [w2 es2]. cbn [fst snd] in *.
  rewrite Hh1, Hp1, Hh, Hp. repeat split.
  unfold connections. rewrite omap_app. apply Forall_app. split; [exact Hc|].
  rewrite <- Hh, <- Hp. exact Hc1.
Qed.

(** A server switch that is answered with a success has written the new
    server into the configuration. *)
Lemma update_server_accepted (body : gmap string JsVal) (w : World) (resp : Response) :
  answer (api_update_server body w) = Some resp ->
  status resp = 200%N ->
  server_host (config (world (api_update_server body w)))
  = trim (as_string (prop body "host"))
  /\ server_port (config (world (api_update_server body w)))
     = as_number (prop body "port").
Proof.
  unfold answer, api_update_server.
  js_eval; cbn; try (intros [= <-]; discriminate); split; reflexivity.
Qed.

(** ** The server switch *)

Section UpdateServer.
Local Open Scope R_scope.

Lemma host_check (v : JsVal) :
  negb (truthy v) || negb (bool_decide (typeof v = TyString))
  || bool_decide (trim (as_string v) = []) = false
  <-> valid_host v.
Proof.
  unfold valid_host. split.
  - intros H. apply orb_false_elim in H as [H Ht].
    apply orb_false_elim in H as [_ Hs].
    destruct v; try discriminate Hs. exists s. split; [reflexivity|].
    cbn in Ht. now apply bool_decide_eq_false_1 in Ht.
  - intros (s & -> & Hs). cbn.
    rewrite (bool_decide_eq_false_2 (trim s = [])) by exact Hs.
    rewrite bool_decide_eq_false_2; [reflexivity|].
    intros ->. now apply Hs.
Qed.

Lemma port_check (v : JsVal) :
  negb (truthy v) || negb (bool_decide (typeof v = TyNumber))
  || bool_decide (as_number v < 1) || bool_decide (as_number v > 65535) = false
  <-> valid_port v.
Proof.
  unfold valid_port. split.
  - intros H. apply orb_false_elim in H as [H Hhi].
    apply orb_false_elim in H as [H Hlo].
    apply orb_false_elim in H as [_ Hn].
    destruct v; try discriminate Hn. exists r. split; [reflexivity|].
    cbn in Hlo, Hhi.
    apply bool_decide_eq_false_1 in Hlo, Hhi. lra.
  - intros (p & -> & Hp). cbn.
    rewrite (bool_decide_eq_false_2 (p = 0)) by lra.
    rewrite (bool_decide_eq_false_2 (p < 1)) by lra.
    rewrite (bool_decide_eq_false_2 (p > 65535)) by lra.
    reflexivity.
Qed.

(** The world after the body of the [try] block has run to its end. *)
Lemma update_server_written (body : gmap string JsVal) (w : World) :
  valid_switch body ->
  writable (disk w) = true ->
  let cfg := set_server (trim (as_string (prop body "host")))
               (as_number (prop body "port")) (config w) in
  api_update_server body w =
    (Returned (json PServerUpdated),
     mkWorld cfg
       (match bot w with
        | Some _ =>
            set_isPatrolling false
              (set_connected false (set_switchingServers true (botState w)))
        | None => set_switchingServers true (botState w)
        end)
       (bot w) (mkDisk cfg true),
     EWriteConfig cfg
       :: match bot w with
          | Some _ => [ELog LSwitchingServer; EQuit QSwitchingServers]
          | None => []
          end
       ++ [ESetTimeout TConnectNewServer 2000]).
Proof.
  intros [Hh Hp] Hw cfg. subst cfg.
  apply host_check in Hh. apply port_check in Hp.
  unfold api_update_server. rewrite Hh, Hp. js_step. rewrite Hw. js_step.
  destruct (bot w); reflexivity.
Qed.

(** The write fails: the [catch] block answers, after the configuration
    in memory has been changed. *)
Lemma update_server_disk_refuses (body : gmap string JsVal) (w : World) :
  valid_switch body ->
  writable (disk w) = false ->
  api_update_server body w =
    (Returned (status_json 500 (PError FailedToUpdateServer)),
     mkWorld
       (set_server (trim (as_string (prop body "host")))
          (as_number (prop body "port")) (config w))
       (botState w) (bot w) (disk w),
     [ELog LErrorUpdatingServer]).
Proof.
  intros [Hh Hp] Hw.
  apply host_check in Hh. apply port_check in Hp.
  unfold api_update_server. rewrite Hh, Hp. js_step. rewrite Hw. reflexivity.
Qed.

Lemma update_server_rejected (body : gmap string JsVal) (w : World) :
  ~ valid_switch body ->
  exists e : ErrorText,
    (e = InvalidHost \/ e = InvalidPortNumber)
    /\ api_update_server body w = (Returned (status_json 400 (PError e)), w, []).
Proof.
  intros Hv. unfold api_update_server.
  destruct (negb (truthy (prop body "host")) || _ || _) eqn:Hh.
  { exists InvalidHost. split; [now left | reflexivity]. }
  destruct (negb (truthy (prop body "port")) || _ || _ || _) eqn:Hp.
  { exists InvalidPortNumber. split; [now right | reflexivity]. }
  exfalso. apply Hv. split; [now apply host_check | now apply port_check].
Qed.

Lemma valid_switch_dec (body : gmap string JsVal) :
  valid_switch body \/ ~ valid_switch body.
Proof.
  unfold valid_switch.
  destruct (negb (truthy (prop body "host"))
            || negb (bool_decide (typeof (prop body "host") = TyString))
            || bool_decide (trim (as_string (prop body "host")) = []))%bool
    eqn:Hh.
  { right. intros [H _]. apply host_check in H. congruence. }
  destruct (negb (truthy (prop body "port"))
            || negb (bool_decide (typeof (prop body "port") = TyNumber))
            || bool_decide (as_number (prop body "port") < 1)
            || bool_decide (as_number (prop body "port") > 65535))%bool
    eqn:Hp.
  { right. intros [_ H]. apply port_check in H. congruence. }
  left. split; [now apply host_check | now apply port_check].
Qed.

Lemma sample_switch_valid : valid_switch sample_switch.
Proof.
  split.
  - exists (js " play.example.net "). split; [reflexivity|].
    vm_compute. discriminate.
  - exists 25566. split; [reflexivity | lra].
Qed.
End UpdateServer.

(** C7, as stated, fails when [config.json] cannot be written: the request
    below has a valid host and a valid port and is answered with status
    500. *)
Lemma update_server_write_failure :
  answer (api_update_server sample_switch readonly_world)
  = Some (status_json 500 (PError FailedToUpdateServer))
  /\ ~ (switch_succeeds sample_switch readonly_world
        <-> valid_switch sample_switch).
Proof.
  pose proof (update_server_disk_refuses sample_switch readonly_world
                sample_switch_valid eq_refl) as Hrun.
  split.
  - unfold answer. rewrite Hrun. reflexivity.
  - intros [_ H]. destruct (H sample_switch_valid) as [Ha _].
    unfold answer in Ha. rewrite Hrun in Ha. discriminate Ha.
Qed.

(** C7, amended.  As long as [config.json] can be written, a request
    succeeds (host and port of the configuration updated, configuration
    written to [config.json], connection to the new server scheduled 2
    seconds later) if and only if its host is a string that is not empty
    once trimmed and its port is a number from 1 to 65535.  When the file
    cannot be written, a request with a valid host and port is answered
    with a 500 error, the file is unchanged and nothing is scheduled.  A
    request with an invalid host or port is answered with a 400 error and
    changes neither the configuration in memory nor the file. *)
Theorem update_server_outcomes (body : gmap string JsVal) (w : World) :
  let r := api_update_server body w in
  (writable (disk w) = true -> (switch_succeeds body w <-> valid_switch body))
  /\ (writable (disk w) = false -> valid_switch body ->
      answer r = Some (status_json 500 (PError FailedToUpdateServer))
      /\ disk (world r) = disk w
      /\ timeouts (effects r) = [])
  /\ (~ valid_switch body ->
      exists resp : Response,
        answer r = Some resp /\ status resp = 400%N
        /\ world r = w /\ effects r = []).
Proof.
  intros r. subst r. split; [|split].
  - intros Hw. split.
    + intros [Ha _]. destruct (valid_switch_dec body) as [Hv|Hv]; [exact Hv|].
      destruct (update_server_rejected body w Hv) as (e & _ & Hrun).
      unfold answer in Ha. rewrite Hrun in Ha. discriminate Ha.
    + intros Hv. unfold switch_succeeds.
      rewrite (update_server_written body w Hv Hw).
      unfold answer. js_step. repeat split; try reflexivity.
      destruct (bot w); reflexivity.
  - intros Hw Hv. rewrite (update_server_disk_refuses body w Hv Hw).
    unfold answer. js_step. destruct w as [c s b [f wr]]. cbn in *. subst wr.
    repeat split.
  - intros Hv. destruct (update_server_rejected body w Hv) as (e & _ & Hrun).
    rewrite Hrun. eexists. unfold answer. js_step. repeat split.
Qed.

Lemma update_server_outcomes_witness :
  switch_succeeds sample_switch sample_world.
Proof.
  apply (proj1 (update_server_outcomes sample_switch sample_world) eq_refl).
  apply sample_switch_valid.
Defined.

(** C4.  When the connection ends, [connected] and [isPatrolling] become
    false, and the reconnection (the task that calls [createNewBot], after
    5 seconds) is scheduled if and only if [switchingServers] is false at
    that moment; when the flag is true nothing is scheduled and the flag
    is reset.  A server switch that is accepted leaves the flag raised, and
    the flag stays raised until the end of the connection is handled: the
    handler then schedules no reconnection.  The reconnection task calls
    [createNewBot] once, with the server of the configuration; after an
    accepted switch, and until the next one, this is the new server for
    every bot that is created. *)
Theorem reconnect_handling :
  (forall w : World,
      let r := on_end w in
      outcome r = Returned tt
      /\ connected (botState (world r)) = false
      /\ isPatrolling (botState (world r)) = false
      /\ (timeouts (effects r) = [(TReconnect, 5000%N)]
          <-> switchingServers (botState w) = false)
      /\ (switchingServers (botState w) = true ->
          timeouts (effects r) = []
          /\ switchingServers (botState (world r)) = false))
  /\ (forall (body : gmap string JsVal) (w : World) (resp : Response)
             (evs : list (Event * Inputs)),
         answer (api_update_server body w) = Some resp ->
         status resp = 200%N ->
         Forall (fun e => e.1 <> EvEnd) evs ->
         let w1 := (run evs (world (api_update_server body w))).1 in
         switchingServers (botState w1) = true
         /\ timeouts (effects (on_end w1)) = []
         /\ switchingServers (botState (world (on_end w1))) = false)
  /\ (forall (i : Inputs) (w : World),
         connections (effects (run_task TReconnect i w))
         = [(server_host (config w), server_port (config w))])
  /\ (forall (body : gmap string JsVal) (w : World) (resp : Response)
             (evs : list (Event * Inputs)),
         answer (api_update_server body w) = Some resp ->
         status resp = 200%N ->
         Forall (fun e => forall body', e.1 <> EvUpdateServer body') evs ->
         Forall (fun c => c = (trim (as_string (prop body "host")),
                               as_number (prop body "port")))
           (connections (run evs (world (api_update_server body w))).2)).
Proof.
  split; [|split; [|split]].
  - intros w r. subst r. rewrite on_end_run.
    destruct (switchingServers (botState w)); js_step; cbn;
      repeat split; try done.
  - intros body w resp evs Ha Hs Hevs w1.
    assert (switchingServers (botState w1) = true) as Hflag.
    { apply run_keeps_switching; [exact Hevs|].
      exact (update_server_raises_flag body w resp Ha Hs). }
    split; [exact Hflag|]. rewrite on_end_run, Hflag. split; reflexivity.
  - intros i w. unfold run_task, createNewBot. js_step.
    destruct (made i); reflexivity.
  - intros body w resp evs Ha Hs Hevs.
    destruct (update_server_accepted body w resp Ha Hs) as [Hh Hp].
    destruct (run_server evs (world (api_update_server body w)) Hevs)
      as (_ & _ & Hc).
    rewrite Hh, Hp in Hc. exact Hc.
Qed.

Lemma reconnect_handling_witness :
  let w1 := (run [(EvMove, mkInputs None 0 0); (EvHealth, mkInputs None 0 0)]
               (world (api_update_server sample_switch sample_world))).1 in
  switchingServers (botState w1) = true
  /\ timeouts (effects (on_end w1)) = []
  /\ switchingServers (botState (world (on_end w1))) = false.
Proof.
  apply (proj1 (proj2 reconnect_handling) sample_switch sample_world
           (json PServerUpdated)).
  - rewrite (update_server_written sample_switch sample_world
               sample_switch_valid eq_refl).
    reflexivity.
  - reflexivity.
  - repeat constructor; discriminate.
Defined.

(** ** The patrol loop *)

Section Patrol.
Variables (u v : R).

Lemma getRandomPoint_value (w : World) :
  getRandomPoint u v w = (Returned (random_point u v w), w, []).
Proof. reflexivity. Qed.

Lemma patrol_catch_run (w : World) :
  patrol_catch w =
    (Returned Completed, w,
     ELog LPatrolError
       :: if patrol_on w
          then [ELog LRetryingPatrol; ESetTimeout TPatrol 3000]
          else [ELog LNotRetryingPatrol]).
Proof.
  unfold patrol_catch, patrol_on. js_step.
  destruct (connected (botState w) && isPatrolling (botState w)); reflexivity.
Qed.

(** Outside the guard, [patrol] returns at once. *)
Lemma patrol_stopped (w : World) :
  patrol_on w = false ->
  patrol u v w = (Returned Completed, w, [ELog LPatrolStopped]).
Proof.
  unfold patrol_on, patrol. intros H. js_step.
  destruct (connected (botState w)), (isPatrolling (botState w));
    try discriminate H; reflexivity.
Qed.


(** Without a pathfinder, [moveToPosition] returns without moving and
    the loop goes on to its first wait. *)
Lemma patrol_not_moving (w : World) (b : Bot) :
  bot w = Some b ->
  bot_pathfinder b = false ->
  patrol_on w = true ->
  patrol u v w =
    (Returned (Suspended AwaitSleep2), w,
     [ELog LPatrollingTo; ELog LPathfinderNotAvailable;
      ELog LReachedPatrolPoint; ESetTimeout TResolveSleep2 2000]).
Proof.
  unfold patrol_on. intros Hb Hp Hg.
  apply andb_prop in Hg as [Hc Hi].
  unfold patrol, patrol_try. js_step. rewrite Hc, Hi. js_step.
  rewrite getRandomPoint_value. unfold moveToPosition. js_step.
  rewrite Hb. js_step. rewrite Hp. reflexivity.
Qed.




(** [patrol] catches what its body throws. *)
Lemma patrol_returns (w : World) :
  exists st : PatrolStatus, outcome (patrol u v w) = Returned st.
Proof.
  unfold patrol, patrol_try, patrol_catch, patrol_after_move1,
    moveToPosition, getRandomPoint.
  js_eval; eexists; reflexivity.
Qed.

End Patrol.

(** ** Exceptions in the patrol loop *)

Lemma try_catch_thrown {A} (m h : Js A) (w : World) :
  outcome (m w) = Thrown ->
  try_catch m h w =
    (outcome (h (world (m w))), world (h (world (m w))),
     effects (m w) ++ effects (h (world (m w)))).
Proof.
  unfold try_catch, outcome, world, effects.
  destruct (m w) as [[o w1] e1]; cbn. intros ->.
  destruct (h w1) as [[r w2] e2]. reflexivity.
Qed.

Lemma try_catch_returned {A} (m h : Js A) (w : World) (a : A) :
  outcome (m w) = Returned a ->
  try_catch m h w = m w.
Proof.
  unfold try_catch, outcome.
  destruct (m w) as [[o w1] e1]; cbn. intros ->. reflexivity.
Qed.

(** The first part of the [try] block throws only where [bot] is
    undefined, at the call of [moveToPosition]. *)
Lemma patrol_try_thrown (u v : R) (w : World) :
  outcome (patrol_try u v w) = Thrown ->
  bot w = None
  /\ world (patrol_try u v w) = w
  /\ effects (patrol_try u v w) = [ELog LPatrollingTo].
Proof.
  unfold patrol_try, patrol_after_move1, moveToPosition, getRandomPoint.
  js_eval; cbn; try discriminate. intros _. repeat split.
Qed.

(** A resumed [try] block throws only after the first wait, where [bot] is
    undefined, at the call of [moveToCenter]. *)
Lemma patrol_try_resume_thrown (k : PatrolPoint) (s : Settled) (u v : R) (w : World) :
  outcome (patrol_try_resume k s u v w) = Thrown ->
  k = AwaitSleep2
  /\ bot w = None
  /\ world (patrol_try_resume k s u v w) = w
  /\ effects (patrol_try_resume k s u v w)
     = [ELog LReturningToCenter; ELog LMovingToCenter].
Proof.
  destruct k.
  - destruct s; discriminate.
  - unfold patrol_try_resume, patrol_after_sleep2, patrol_after_move2,
      moveToCenter, moveToPosition.
    js_eval; cbn; try discriminate. intros _. repeat split.
  - destruct s; discriminate.
  - unfold patrol_try_resume. js_step.
    destruct (connected (botState w) && isPatrolling (botState w)).
    + js_step. destruct (patrol_returns u v w) as [st Hst].
      destruct (patrol u v w) as [[o w1] es]. cbn in Hst. subst o.
      discriminate.
    + discriminate.
Qed.

(** Inside the guard, [patrol] is its [try] statement. *)
Lemma patrol_guarded (u v : R) (w : World) :
  patrol_on w = true ->
  patrol u v w = try_catch (patrol_try u v) patrol_catch w.
Proof.
  unfold patrol_on, patrol. intros Hg. apply andb_prop in Hg as [Hc Hi].
  unfold mbind, Js_bind, get_botState. rewrite Hc, Hi. cbn [negb orb].
  destruct (try_catch (patrol_try u v) patrol_catch w) as [[r w2] e2].
  reflexivity.
Qed.



(** One whole round on the sample world, event by event: the two moves and
    the two waits come in the order of the loop, and the next round starts
    with a new point. *)
Example patrol_round_effects (i : Inputs) (p : Vec3) :
  let w := patrolling_world in
  let c := center (botState w) in
  timeouts_and_moves
    (run [(EvTimer TPatrol, i);
          (EvPatrolMoveSettled (AwaitMove1 p) Fulfilled, i);
          (EvTimer TResolveSleep2, i);
          (EvPatrolMoveSettled (AwaitMove2 c) Rejected, i);
          (EvTimer TResolveSleep3, i)] w).2
  = [EGoto (random_point (rand1 i) (rand2 i) w) 1;
     ESetTimeout TResolveSleep2 2000;
     EGoto c 1;
     ESetTimeout TResolveSleep3 3000;
     EGoto (random_point (rand1 i) (rand2 i) w) 1].
Proof. reflexivity. Qed.

(** C5.  When the body of the patrol loop throws, the retry
    ([setTimeout(patrol, 3000)]) is scheduled if and only if the bot is
    connected and patrolling when the error is caught; otherwise the call
    ends and schedules nothing. *)
Theorem patrol_error_retry :
  (forall (w : World) (k : PatrolPoint) (s : Settled) (u v : R),
      outcome (patrol_try_resume k s u v w) = Thrown ->
      let caught := world (patrol_try_resume k s u v w) in
      let r := patrol_resume k s u v w in
      outcome r = Returned Completed
      /\ (timeouts (effects r) = [(TPatrol, 3000%N)] <-> patrol_on caught = true)
      /\ (patrol_on caught = false -> timeouts (effects r) = []))
  /\ (forall (w : World) (u v : R),
         patrol_on w = true ->
         outcome (patrol_try u v w) = Thrown ->
         let caught := world (patrol_try u v w) in
         let r := patrol u v w in
         outcome r = Returned Completed
         /\ (timeouts (effects r) = [(TPatrol, 3000%N)] <-> patrol_on caught = true)
         /\ (patrol_on caught = false -> timeouts (effects r) = [])).
Proof.
  split.
  - intros w k s u v Ht caught r. subst caught r.
    destruct (patrol_try_resume_thrown k s u v w Ht) as (_ & _ & Hw & He).
    unfold patrol_resume.
    rewrite (try_catch_thrown _ _ _ Ht), Hw, He, patrol_catch_run.
    js_step. destruct (patrol_on w); cbn; repeat split; done.
  - intros w u v Hg Ht caught r. subst caught r.
    destruct (patrol_try_thrown u v w Ht) as (_ & Hw & He).
    rewrite (patrol_guarded u v w Hg).
    rewrite (try_catch_thrown _ _ _ Ht), Hw, He, patrol_catch_run.
    js_step. destruct (patrol_on w); cbn; repeat split; done.
Qed.

Lemma patrol_error_retry_witness :
  timeouts (effects (patrol_resume AwaitSleep2 Fulfilled 0 0 botless_world))
  = [(TPatrol, 3000%N)]
  /\ timeouts (effects (patrol_resume AwaitSleep2 Fulfilled 0 0
                          (initial_world sample_config true)))
     = [].
Proof.
  destruct patrol_error_retry as [Hresume _]. split.
  - apply (Hresume botless_world AwaitSleep2 Fulfilled 0%R 0%R eq_refl).
    reflexivity.
  - apply (Hresume (initial_world sample_config true) AwaitSleep2 Fulfilled
             0%R 0%R eq_refl).
    reflexivity.
Defined.

(** ** Starting and stopping the patrol *)

(** [patrol] writes [currentTarget] and nothing else. *)
Lemma patrol_frame (u v : R) (w : World) :
  config (world (patrol u v w)) = config w
  /\ bot (world (patrol u v w)) = bot w
  /\ disk (world (patrol u v w)) = disk w
  /\ exists t : option Vec3,
       botState (world (patrol u v w)) = set_currentTarget t (botState w).
Proof.
  unfold patrol, patrol_try, patrol_catch, patrol_after_move1,
    moveToPosition, getRandomPoint.
  js_eval; repeat split; try assumption; try (eexists; reflexivity);
    exists (currentTarget (botState w)); destruct (botState w); reflexivity.
Qed.

Lemma startPatrolling_run (u v : R) (w : World) :
  startPatrolling u v w =
    if connected (botState w) && negb (isPatrolling (botState w))
    then
      let w1 := with_botState (set_isPatrolling true (botState w)) w in
      (Returned tt, world (patrol u v w1),
       ELog LStartingPatrol :: effects (patrol u v w1))
    else (Returned tt, w, []).
Proof.
  unfold startPatrolling. js_step.
  destruct (connected (botState w) && negb (isPatrolling (botState w)));
    [|reflexivity].
  js_step. fold (with_botState (set_isPatrolling true (botState w)) w).
  destruct (patrol_returns u v
              (with_botState (set_isPatrolling true (botState w)) w))
    as [st Hst].
  destruct (patrol u v _) as [[o w1] es]. cbn in Hst. subst o.
  cbn. rewrite app_nil_r. reflexivity.
Qed.

Lemma startPatrolling_flags (u v : R) (w : World) :
  connected (botState (world (startPatrolling u v w))) = connected (botState w)
  /\ isPatrolling (botState (world (startPatrolling u v w)))
     = (connected (botState w) || isPatrolling (botState w)).
Proof.
  rewrite startPatrolling_run.
  destruct (patrol_frame u v (with_botState (set_isPatrolling true (botState w)) w))
    as (_ & _ & _ & t & Ht).
  destruct (connected (botState w)) eqn:Hc, (isPatrolling (botState w)) eqn:Hi;
    cbn [andb negb orb]; cbv zeta;
    repeat match goal with
      | |- context [world (?o, ?w1, ?es)] =>
          change (world (o, w1, es)) with w1
      end;
    try (split; assumption).
  rewrite Ht. cbn. split; [exact Hc | reflexivity].
Qed.

Lemma stopPatrolling_run (w : World) :
  stopPatrolling w =
    (Returned tt, with_botState (set_isPatrolling false (botState w)) w,
     [ELog LPatrolStoppedByUser]).
Proof. reflexivity. Qed.

(** C10.  The toggle endpoint always stops a running patrol; it starts one
    only if the bot is connected; when the bot is neither patrolling nor
    connected, it changes nothing and still answers with a success, which
    reports [isPatrolling] as false. *)
Theorem toggle_patrol_not_pure (u v : R) (w : World) :
  let r := api_toggle_patrol u v w in
  (isPatrolling (botState w) = true ->
   isPatrolling (botState (world r)) = false
   /\ answer r = Some (json (PPatrol false)))
  /\ (isPatrolling (botState w) = false -> connected (botState w) = true ->
      isPatrolling (botState (world r)) = true
      /\ answer r = Some (json (PPatrol true)))
  /\ (isPatrolling (botState w) = false -> connected (botState w) = false ->
      world r = w
      /\ effects r = []
      /\ answer r = Some (mkResponse 200 (PPatrol false))).
Proof.
  intros r. subst r. unfold api_toggle_patrol, answer.
  split; [|split].
  - intros Hi. js_step. rewrite Hi. rewrite stopPatrolling_run. js_step.
    split; reflexivity.
  - intros Hi Hc. js_step. rewrite Hi.
    pose proof (startPatrolling_flags u v w) as [_ Hflag].
    rewrite Hc in Hflag. cbn [orb] in Hflag.
    destruct (startPatrolling u v w) as [[[] w1] es] eqn:Hrun.
    + cbn in Hflag. js_step. rewrite Hflag. split; reflexivity.
    + rewrite startPatrolling_run in Hrun.
      destruct (connected (botState w) && negb (isPatrolling (botState w)));
        discriminate Hrun.
  - intros Hi Hc. js_step. rewrite Hi, startPatrolling_run, Hc. js_step.
    rewrite Hi. repeat split.
Qed.

Lemma toggle_patrol_not_pure_witness :
  world (api_toggle_patrol 0 0 (initial_world sample_config true))
  = initial_world sample_config true
  /\ effects (api_toggle_patrol 0 0 (initial_world sample_config true)) = []
  /\ answer (api_toggle_patrol 0 0 (initial_world sample_config true))
     = Some (mkResponse 200 (PPatrol false)).
Proof.
  apply (toggle_patrol_not_pure 0 0 (initial_world sample_config true));
    reflexivity.
Defined.

(** ** Spawning *)





(** ** Setting the center *)

Lemma set_center_rejected (body : gmap string JsVal) (w : World) :
  ~ (is_number (prop body "x") /\ is_number (prop body "y")
     /\ is_number (prop body "z")) ->
  api_set_center body w
  = (Returned (status_json 400 (PError InvalidCoordinates)), w, []).
Proof.
  intros Hn. unfold api_set_center.
  destruct (prop body "x") eqn:Hx, (prop body "y") eqn:Hy,
    (prop body "z") eqn:Hz; try reflexivity.
  exfalso. apply Hn. unfold is_number. repeat split; eexists; reflexivity.
Qed.

(** [moveToCenter] leaves the center where it is. *)
Lemma detached_moveToCenter_center (w : World) :
  center (botState (world (detached moveToCenter w))) = center (botState w).
Proof.
  unfold moveToCenter, moveToPosition. js_eval; reflexivity.
Qed.

(** C6.  A request whose [x], [y] and [z] are numbers sets the center to
    exactly these and is answered with a success that carries the new
    center; a request in which one of them is missing or is not a number is
    answered with a 400 error and changes nothing. *)
Theorem set_center_endpoint (body : gmap string JsVal) (w : World) :
  let r := api_set_center body w in
  (forall x y z : R,
      prop body "x" = JNum x -> prop body "y" = JNum y -> prop body "z" = JNum z ->
      center (botState (world r)) = mkVec3 x y z
      /\ answer r = Some (mkResponse 200 (PCenter (mkVec3 x y z))))
  /\ (~ (is_number (prop body "x") /\ is_number (prop body "y")
         /\ is_number (prop body "z")) ->
      answer r = Some (mkResponse 400 (PError InvalidCoordinates))
      /\ world r = w
      /\ effects r = []).
Proof.
  intros r. subst r. split.
  - intros x y z Hx Hy Hz.
    unfold api_set_center, answer. rewrite Hx, Hy, Hz. cbn [typeof as_number].
    rewrite (bool_decide_eq_true_2 (TyNumber = TyNumber)) by reflexivity.
    unfold moveToCenter, moveToPosition. js_eval; split; reflexivity.
  - intros Hn. rewrite (set_center_rejected body w Hn). repeat split.
Qed.

Lemma set_center_endpoint_witness :
  (center (botState (world (api_set_center sample_center sample_world)))
   = mkVec3 (25 / 2) 70 (-3)
   /\ answer (api_set_center sample_center sample_world)
      = Some (mkResponse 200 (PCenter (mkVec3 (25 / 2) 70 (-3)))))
  /\ (answer (api_set_center partial_center sample_world)
      = Some (mkResponse 400 (PError InvalidCoordinates))
      /\ world (api_set_center partial_center sample_world) = sample_world
      /\ effects (api_set_center partial_center sample_world) = []).
Proof.
  split.
  - apply (proj1 (set_center_endpoint sample_center sample_world));
      reflexivity.
  - apply (proj2 (set_center_endpoint partial_center sample_world)).
    intros (_ & [r Hr] & _). discriminate Hr.
Defined.

(** ** The endpoints always answer *)

Lemma endpoints_answer (u v : R) (body : gmap string JsVal) (w : World) :
  (exists resp, answer (api_set_center body w) = Some resp)
  /\ (exists resp, answer (api_toggle_patrol u v w) = Some resp)
  /\ (exists resp, answer (api_update_server body w) = Some resp)
  /\ (exists resp, answer (api_disconnect w) = Some resp).
Proof.
  unfold answer. repeat apply conj.
  - unfold api_set_center, moveToCenter, moveToPosition.
    js_eval; eexists; reflexivity.
  - unfold api_toggle_patrol. js_step.
    destruct (isPatrolling (botState w)) eqn:Hi.
    + rewrite stopPatrolling_run. eexists; reflexivity.
    + rewrite startPatrolling_run, Hi.
      destruct (connected (botState w) && negb false); eexists; reflexivity.
  - unfold api_update_server. js_eval; eexists; reflexivity.
  - unfold api_disconnect. js_eval; eexists; reflexivity.
Qed.

(** ** The invariant of the bot state *)

Lemma initial_patrolling_connected (cfg : Config) (can_write : bool) :
  patrolling_connected (initial_world cfg can_write).
Proof. unfold patrolling_connected. cbn. discriminate. Qed.

(** Every turn of the event loop keeps the invariant. *)
Lemma handle_patrolling_connected (ev : Event) (i : Inputs) (w : World) :
  patrolling_connected w -> patrolling_connected (handle ev i w).1.
Proof.
  unfold patrolling_connected. intros HI.
  destruct ev as [| | | | | | | | |t|k| | | | |];
    try destruct t; try destruct k;
    js_handlers; js_eval; cbn;
    repeat match goal with
      | H : negb _ = _ |- _ => rewrite ?negb_true_iff, ?negb_false_iff in H
      | H : _ && _ = true |- _ => apply andb_prop in H as [? ?]
      | H : _ || _ = false |- _ => apply orb_false_elim in H as [? ?]
      end;
    intuition congruence.
Qed.

Lemma run_patrolling_connected (evs : list (Event * Inputs)) (w : World) :
  patrolling_connected w -> patrolling_connected (run evs w).1.
Proof.
  revert w. induction evs as [|[ev i] evs IH]; intros w HI; [exact HI|].
  cbn [run]. pose proof (handle_patrolling_connected ev i w HI) as H1.
  destruct (handle ev i w) as [w1 es1]. specialize (IH w1 H1).
  destruct (run evs w1) as [w2 es2]. exact IH.
Qed.

(** C8.  A patrolling bot is a connected bot: this holds when the script
    has been loaded and is kept by every event, hence in every state the
    script reaches.  [startPatrolling] raises [isPatrolling] only on a
    connected bot, and the error handler, the end handler and the
    disconnect endpoint clear [connected] and [isPatrolling] together, as
    does the server switch whenever it clears [connected]. *)
Theorem patrolling_implies_connected :
  (forall (cfg : Config) (can_write : bool) (evs : list (Event * Inputs)),
      patrolling_connected (run evs (initial_world cfg can_write)).1)
  /\ (forall (ev : Event) (i : Inputs) (w : World),
         patrolling_connected w -> patrolling_connected (handle ev i w).1)
  /\ (forall (u v : R) (w : World),
         isPatrolling (botState w) = false ->
         isPatrolling (botState (world (startPatrolling u v w))) = true ->
         connected (botState w) = true)
  /\ (forall w : World,
         connected (botState (world (on_error w))) = false
         /\ isPatrolling (botState (world (on_error w))) = false)
  /\ (forall w : World,
         connected (botState (world (on_end w))) = false
         /\ isPatrolling (botState (world (on_end w))) = false)
  /\ (forall w : World,
         connected (botState (world (api_disconnect w))) = false
         /\ isPatrolling (botState (world (api_disconnect w))) = false)
  /\ (forall (body : gmap string JsVal) (w : World),
         let s' := botState (world (api_update_server body w)) in
         (connected s' = false /\ isPatrolling s' = false)
         \/ (connected s' = connected (botState w)
             /\ isPatrolling s' = isPatrolling (botState w))).
Proof.
  repeat apply conj.
  - intros cfg can_write evs.
    apply run_patrolling_connected, initial_patrolling_connected.
  - apply handle_patrolling_connected.
  - intros u v w Hi Hs. destruct (startPatrolling_flags u v w) as [_ Hflag].
    rewrite Hflag, Hi, orb_false_r in Hs. exact Hs.
  - intros w. split; reflexivity.
  - intros w. rewrite on_end_run.
    destruct (switchingServers (botState w)); split; reflexivity.
  - intros w. unfold api_disconnect. js_eval; split; reflexivity.
  - intros body w s'. subst s'. unfold api_update_server.
    js_eval; cbn; auto.
Qed.

(** * Further properties of the script *)

(** ** Where the bot is sent *)

Lemma xz_distance_self (c : Vec3) : xz_distance c c = 0%R.
Proof.
  unfold xz_distance.
  replace ((vx c - vx c) ^ 2 + (vz c - vz c) ^ 2)%R with 0%R by ring.
  apply sqrt_0.
Qed.





(** ** The bot object and the [catch] block of the patrol *)

(** With a bot object at hand, a callback keeps one and the [catch] block
    of [patrol] does not run. *)
Lemma handle_with_bot (ev : Event) (i : Inputs) (w : World) :
  bot w <> None ->
  bot (handle ev i w).1 <> None
  /\ ~ In (ELog LPatrolError) (handle ev i w).2
  /\ forall ms : N, ~ In (TPatrol, ms) (timeouts (handle ev i w).2).
Proof.
  intros Hb.
  destruct ev as [| | | | | | | | |t|k| | | | |];
    try destruct t; try destruct k;
    js_handlers; js_eval; cbn;
    try congruence;
    (split; [congruence|]); (split; [intros H | intros ms H]);
    repeat (destruct H as [H|H]; [discriminate H|]);
    exact H.
Qed.

(** X2.  [bot] is assigned and never cleared: once a bot object exists,
    one exists after every sequence of events.  From then on no
    [moveToPosition] throws, so the [catch] block of [patrol] never runs:
    no patrol error is logged and no patrol retry is scheduled. *)
Theorem patrol_catch_unreached_with_bot (evs : list (Event * Inputs)) (w : World) :
  bot w <> None ->
  bot (run evs w).1 <> None
  /\ ~ In (ELog LPatrolError) (run evs w).2
  /\ forall ms : N, ~ In (TPatrol, ms) (timeouts (run evs w).2).
Proof.
  revert w. induction evs as [|[ev i] evs IH]; intros w Hb.
  { cbn. repeat split; [exact Hb | intros [] | intros ms []]. }
  cbn [run]. destruct (handle_with_bot ev i w Hb) as (Hb1 & Hl1 & Ht1).
  destruct (handle ev i w) as [w1 es1]. cbn [fst snd] in Hb1, Hl1, Ht1.
  destruct (IH w1 Hb1) as (Hb2 & Hl2 & Ht2).
  destruct (run evs w1) as [w2 es2]. cbn [fst snd] in *.
  split; [exact Hb2|]. split.
  - intros H. apply in_app_or in H as [H|H]; [now apply Hl1 | now apply Hl2].
  - unfold timeouts. rewrite omap_app. intros ms H.
    apply in_app_or in H as [H|H]; [now apply (Ht1 ms) | now apply (Ht2 ms)].
Qed.

Lemma patrol_catch_unreached_with_bot_witness :
  let evs := [(EvTogglePatrol, mkInputs None (1 / 4) (1 / 2));
              (EvTimer TResolveSleep2, mkInputs None 0 0);
              (EvTimer TCreateNewBot, mkInputs None 0 0)] in
  bot (run evs sample_world).1 <> None
  /\ ~ In (ELog LPatrolError) (run evs sample_world).2
  /\ forall ms : N, ~ In (TPatrol, ms) (timeouts (run evs sample_world).2).
Proof.
  apply (patrol_catch_unreached_with_bot
           [(EvTogglePatrol, mkInputs None (1 / 4) (1 / 2));
            (EvTimer TResolveSleep2, mkInputs None 0 0);
            (EvTimer TCreateNewBot, mkInputs None 0 0)] sample_world).
  discriminate.
Defined.

(** ** Stopping the patrol *)

(** X3.  Once the patrol is off (stopped, or the connection lost), a call
    of [patrol] that is suspended comes to its end within four
    resumptions, wherever it stood: it finishes its round, which may still
    start the move back to the center and no other move, and it schedules
    no retry. *)
Theorem stopped_patrol_ends (k : PatrolPoint) (s : Settled) (u v : R) (w : World) :
  patrol_on w = false ->
  exists (w' : World) (es : list Effect),
    patrol_rest 4 k s u v w = Some (w', es)
    /\ patrol_on w' = false
    /\ (forall ms : N, ~ In (TPatrol, ms) (timeouts es))
    /\ (gotos es = [] \/ gotos es = [center (botState w)]).
Proof.
  unfold patrol_on. intros Hg.
  destruct k; cbn [patrol_rest]; js_handlers; js_eval;
    try discriminate Hg;
    eexists _, _; (split; [reflexivity|]); cbn;
    (split; [assumption|]);
    (split; [intros ms H;
             repeat (destruct H as [H|H]; [discriminate H|]); exact H
            | auto]).
Qed.

Lemma stopped_patrol_ends_witness :
  exists (w' : World) (es : list Effect),
    patrol_rest 4 (AwaitMove1 (mkVec3 1 64 1)) Rejected 0 0
      (world (stopPatrolling patrolling_world)) = Some (w', es)
    /\ patrol_on w' = false
    /\ (forall ms : N, ~ In (TPatrol, ms) (timeouts es))
    /\ (gotos es = []
        \/ gotos es = [center (botState (world (stopPatrolling patrolling_world)))]).
Proof.
  apply (stopped_patrol_ends (AwaitMove1 (mkVec3 1 64 1)) Rejected 0 0
           (world (stopPatrolling patrolling_world))).
  reflexivity.
Defined.

(** X4.  [stopPatrolling] cancels nothing: when the patrol is stopped and
    started again while a call of [patrol] waits for its 3 seconds, that
    call goes on when its timer fires, beside the call the restart has
    begun.  Two moves to two random points have then been requested. *)
Theorem stop_does_not_cancel (w : World) (b : Bot) (i1 i2 i3 : Inputs) :
  bot w = Some b ->
  bot_pathfinder b = true ->
  patrol_on w = true ->
  patrol_on (run [(EvTogglePatrol, i1); (EvTogglePatrol, i2)] w).1 = true
  /\ gotos (run [(EvTogglePatrol, i1); (EvTogglePatrol, i2);
                 (EvTimer TResolveSleep3, i3)] w).2
     = [random_point (rand1 i2) (rand2 i2) w;
        random_point (rand1 i3) (rand2 i3) w].
Proof.
  unfold patrol_on. intros Hb Hp Hg. apply andb_prop in Hg as [Hc Hi].
  destruct w as [cfg st ob d]. destruct st. destruct b.
  cbn in Hb, Hp, Hc, Hi. subst.
  cbn [run]. js_handlers.
  js_eval; try (cbn in *; discriminate); split; reflexivity.
Qed.

Lemma stop_does_not_cancel_witness :
  let i := mkInputs None (1 / 4) (1 / 2) in
  patrol_on (run [(EvTogglePatrol, i); (EvTogglePatrol, i)] patrolling_world).1
  = true
  /\ gotos (run [(EvTogglePatrol, i); (EvTogglePatrol, i);
                 (EvTimer TResolveSleep3, i)] patrolling_world).2
     = [random_point (1 / 4) (1 / 2) patrolling_world;
        random_point (1 / 4) (1 / 2) patrolling_world].
Proof.
  apply (stop_does_not_cancel patrolling_world sample_bot
           (mkInputs None (1 / 4) (1 / 2)) (mkInputs None (1 / 4) (1 / 2))
           (mkInputs None (1 / 4) (1 / 2)));
    reflexivity.
Defined.

(** ** Disconnecting and reconnecting *)

Lemma api_disconnect_run (w : World) :
  api_disconnect w =
    (Returned (json PDisconnected),
     with_botState
       (set_switchingServers true
          (set_isPatrolling false
             (set_connected false
                (set_serverConfigured false (botState w))))) w,
     ELog LUserRequestedDisconnect
       :: match bot w with
          | Some _ => [EQuit QUserRequested]
          | None => []
          end).
Proof.
  unfold api_disconnect, with_botState. js_step.
  destruct (bot w) eqn:Hb; cbn; rewrite ?Hb; reflexivity.
Qed.

(** X5.  A disconnect asked by the user is answered with a success,
    clears [serverConfigured], [connected] and [isPatrolling], quits the
    bot if there is one, and is not undone by the script: when the end of
    the connection is handled, after whatever other events, no
    reconnection is scheduled. *)
Theorem disconnect_is_not_reconnected (w : World) (evs : list (Event * Inputs)) :
  Forall (fun e => e.1 <> EvEnd) evs ->
  let r := api_disconnect w in
  let w1 := (run evs (world r)).1 in
  answer r = Some (mkResponse 200 PDisconnected)
  /\ serverConfigured (botState (world r)) = false
  /\ connected (botState (world r)) = false
  /\ isPatrolling (botState (world r)) = false
  /\ (In (EQuit QUserRequested) (effects r) <-> bot w <> None)
  /\ timeouts (effects r) = []
  /\ timeouts (effects (on_end w1)) = [].
Proof.
  intros Hevs r w1. subst r w1. rewrite api_disconnect_run.
  unfold answer. js_step.
  do 4 (split; [reflexivity|]). split; [|split].
  - destruct (bot w); cbn; intuition congruence.
  - destruct (bot w); reflexivity.
  - rewrite on_end_run, run_keeps_switching; [reflexivity | exact Hevs |].
    reflexivity.
Qed.

Lemma disconnect_is_not_reconnected_witness :
  let r := api_disconnect patrolling_world in
  let w1 := (run [(EvMove, mkInputs None 0 0)] (world r)).1 in
  answer r = Some (mkResponse 200 PDisconnected)
  /\ serverConfigured (botState (world r)) = false
  /\ connected (botState (world r)) = false
  /\ isPatrolling (botState (world r)) = false
  /\ (In (EQuit QUserRequested) (effects r) <-> bot patrolling_world <> None)
  /\ timeouts (effects r) = []
  /\ timeouts (effects (on_end w1)) = [].
Proof.
  apply (disconnect_is_not_reconnected patrolling_world
           [(EvMove, mkInputs None 0 0)]).
  repeat constructor. discriminate.
Defined.

(** X6.  The reconnection task tries [createNewBot] once.  When
    [mineflayer.createBot] throws, the exception is caught, [bot] keeps
    its value and one further attempt is scheduled 10 seconds later; when
    it returns, [bot] is the new object and nothing is scheduled.  The
    further attempt is not protected: its exception leaves the callback. *)
Theorem reconnection_retries_once (i : Inputs) (w : World) :
  (made i = None ->
   outcome (run_task TReconnect i w) = Returned tt
   /\ world (run_task TReconnect i w) = w
   /\ timeouts (effects (run_task TReconnect i w)) = [(TCreateNewBot, 10000%N)]
   /\ In EUncaught (handle (EvTimer TCreateNewBot) i w).2
   /\ timeouts (handle (EvTimer TCreateNewBot) i w).2 = [])
  /\ (forall b : Bot,
         made i = Some b ->
         outcome (run_task TReconnect i w) = Returned tt
         /\ bot (world (run_task TReconnect i w)) = Some b
         /\ botState (world (run_task TReconnect i w)) = botState w
         /\ timeouts (effects (run_task TReconnect i w)) = []
         /\ ~ In EUncaught (handle (EvTimer TReconnect) i w).2).
Proof.
  split.
  - intros Hm. unfold handle, callback, run_task, createNewBot. js_step.
    rewrite Hm. js_step. repeat split. right. now left.
  - intros b Hm. unfold handle, callback, run_task, createNewBot. js_step.
    rewrite Hm. js_step. repeat split.
    intros H. repeat (destruct H as [H|H]; [discriminate H|]). exact H.
Qed.

Lemma reconnection_retries_once_witness :
  let i := mkInputs None 0 0 in
  outcome (run_task TReconnect i sample_world) = Returned tt
  /\ world (run_task TReconnect i sample_world) = sample_world
  /\ timeouts (effects (run_task TReconnect i sample_world))
     = [(TCreateNewBot, 10000%N)]
  /\ In EUncaught (handle (EvTimer TCreateNewBot) i sample_world).2
  /\ timeouts (handle (EvTimer TCreateNewBot) i sample_world).2 = [].
Proof.
  apply (proj1 (reconnection_retries_once (mkInputs None 0 0) sample_world)).
  reflexivity.
Defined.

(** ** The configuration and its file *)

(** X7.  When [config.json] cannot be written, a valid server switch is
    answered with a 500 error and the file keeps the old server, but the
    configuration in memory already holds the new one: the next
    reconnection goes to the server of the request that failed. *)
Theorem failed_switch_redirects (body : gmap string JsVal) (w : World) (i : Inputs) :
  valid_switch body ->
  writable (disk w) = false ->
  let w' := world (api_update_server body w) in
  answer (api_update_server body w)
  = Some (mkResponse 500 (PError FailedToUpdateServer))
  /\ config_json (disk w') = config_json (disk w)
  /\ botState w' = botState w
  /\ connections (effects (run_task TReconnect i w'))
     = [(trim (as_string (prop body "host")), as_number (prop body "port"))].
Proof.
  intros Hv Hw w'. subst w'.
  rewrite (update_server_disk_refuses body w Hv Hw).
  unfold answer, run_task, createNewBot. js_step.
  repeat split. destruct (made i); reflexivity.
Qed.

Lemma failed_switch_redirects_witness :
  let w' := world (api_update_server sample_switch readonly_world) in
  answer (api_update_server sample_switch readonly_world)
  = Some (mkResponse 500 (PError FailedToUpdateServer))
  /\ config_json (disk w') = config_json (disk readonly_world)
  /\ botState w' = botState readonly_world
  /\ connections (effects (run_task TReconnect (mkInputs None 0 0) w'))
     = [(trim (as_string (prop sample_switch "host")),
         as_number (prop sample_switch "port"))].
Proof.
  apply (failed_switch_redirects sample_switch readonly_world
           (mkInputs None 0 0) sample_switch_valid).
  reflexivity.
Defined.

Lemma handle_config_saved (ev : Event) (i : Inputs) (w : World) :
  ev <> EvDiskChanged false ->
  config_saved w -> config_saved (handle ev i w).1.
Proof.
  unfold config_saved. intros Hev [Hc Hw].
  destruct ev as [| | | | | | | |can|t|k| | | | |];
    try destruct t; try destruct k;
    try (destruct can; [|congruence]);
    js_handlers; js_eval; cbn; try congruence; split; congruence.
Qed.

(** X8.  As long as the file system does not refuse a write, whatever the
    events, [config.json] holds the configuration the script has in
    memory: every accepted server switch is saved before it is used. *)
Theorem config_file_in_step (cfg : Config) (evs : list (Event * Inputs)) :
  Forall (fun e => e.1 <> EvDiskChanged false) evs ->
  config_saved (run evs (initial_world cfg true)).1.
Proof.
  assert (forall w, Forall (fun e => e.1 <> EvDiskChanged false) evs ->
                    config_saved w -> config_saved (run evs w).1) as Hrun.
  { induction evs as [|[ev i] evs IH]; intros w Hevs Hw; [exact Hw|].
    apply Forall_cons in Hevs as [Hev Hevs]. cbn [run].
    pose proof (handle_config_saved ev i w Hev Hw) as H1.
    destruct (handle ev i w) as [w1 es1]. specialize (IH w1 Hevs H1).
    destruct (run evs w1) as [w2 es2]. exact IH. }
  intros Hevs. apply Hrun; [exact Hevs|]. split; reflexivity.
Qed.

Lemma config_file_in_step_witness :
  config_saved
    (run [(EvUpdateServer sample_switch, mkInputs None 0 0);
          (EvTimer TConnectNewServer, mkInputs (Some sample_bot) 0 0)]
       (initial_world sample_config true)).1.
Proof.
  apply (config_file_in_step sample_config
           [(EvUpdateServer sample_switch, mkInputs None 0 0);
            (EvTimer TConnectNewServer, mkInputs (Some sample_bot) 0 0)]).
  repeat constructor; discriminate.
Defined.

(** ** Who writes what *)

Ltac js_all_events ev :=
  destruct ev as [| | | | | | | | |?t|?k| | | | |];
  try match goal with t : Task |- _ => destruct t end;
  try match goal with k : PatrolPoint |- _ => destruct k end;
  js_handlers; js_eval; cbn; try congruence.

(** X9.  Each flag of the bot state is raised in one place only:
    [connected] by the spawn handler, [isPatrolling] by [startPatrolling]
    (the toggle endpoint or the timer set at spawn), [serverConfigured] by
    the timer of a server switch, [switchingServers] by the server switch
    and the disconnect endpoint.  No other event turns one of them from
    false to true. *)
Theorem flags_raised_only_by (ev : Event) (i : Inputs) (w : World) :
  let s := botState w in
  let s' := botState (handle ev i w).1 in
  (ev <> EvSpawn -> connected s' = true -> connected s = true)
  /\ (ev <> EvTogglePatrol -> ev <> EvTimer TAutoStart ->
      isPatrolling s' = true -> isPatrolling s = true)
  /\ (ev <> EvTimer TConnectNewServer ->
      serverConfigured s' = true -> serverConfigured s = true)
  /\ ((forall body, ev <> EvUpdateServer body) -> ev <> EvDisconnect ->
      switchingServers s' = true -> switchingServers s = true).
Proof.
  cbv zeta. repeat apply conj.
  - intros Hev. js_all_events ev.
  - intros Hev1 Hev2. js_all_events ev.
  - intros Hev. js_all_events ev.
  - intros Hev1 Hev2.
    destruct ev as [| | | | | | | | |t|k| | | |body|];
      try (now destruct (Hev1 body));
      try destruct t; try destruct k;
      js_handlers; js_eval; cbn; congruence.
Qed.

Lemma handle_lastChat (ev : Event) (i : Inputs) (w : World) :
  lastChat (botState (handle ev i w).1) = lastChat (botState w).
Proof. js_all_events ev. Qed.

Lemma run_lastChat (evs : list (Event * Inputs)) (w : World) :
  lastChat (botState (run evs w).1) = lastChat (botState w).
Proof.
  revert w. induction evs as [|[ev i] evs IH]; intros w; [reflexivity|].
  cbn [run]. pose proof (handle_lastChat ev i w) as H1.
  destruct (handle ev i w) as [w1 es1]. specialize (IH w1).
  destruct (run evs w1) as [w2 es2]. cbn [fst] in *. congruence.
Qed.

(** X10.  The center is written by three events only: the spawn, a move
    (teleport detection) and the set-center endpoint.  No event at all
    writes the patrol radius, the configured center, the user name of the
    configuration or [lastChat], which is empty in every state the script
    reaches. *)
Theorem center_written_only_by (ev : Event) (i : Inputs) (w : World) :
  (ev <> EvSpawn -> ev <> EvMove -> (forall body, ev <> EvSetCenter body) ->
   center (botState (handle ev i w).1) = center (botState w))
  /\ patrol_radius (config (handle ev i w).1) = patrol_radius (config w)
  /\ patrol_centerX (config (handle ev i w).1) = patrol_centerX (config w)
  /\ patrol_centerY (config (handle ev i w).1) = patrol_centerY (config w)
  /\ patrol_centerZ (config (handle ev i w).1) = patrol_centerZ (config w)
  /\ bot_username (config (handle ev i w).1) = bot_username (config w)
  /\ (forall (cfg : Config) (can_write : bool) (evs : list (Event * Inputs)),
         lastChat (botState (run evs (initial_world cfg can_write)).1) = []).
Proof.
  repeat apply conj.
  - intros Hev1 Hev2 Hev3.
    destruct ev as [| | | | | | | | |t|k|? ?|body| | |];
      try (now destruct (Hev3 body));
      try destruct t; try destruct k;
      js_handlers; js_eval; cbn; congruence.
  - js_all_events ev.
  - js_all_events ev.
  - js_all_events ev.
  - js_all_events ev.
  - js_all_events ev.
  - intros cfg can_write evs. now rewrite run_lastChat.
Qed.

(** ** The recorded position *)

Section Position.
Local Open Scope R_scope.




End Position.



Lemma moved_again (w : World) (p : Vec3) :
  moved (mkWorld (config w) (moved w p) (bot w) (disk w)) p = moved w p.
Proof.
  unfold moved. cbn [config botState].
  set (np := round_position p). set (r := (patrol_radius (config w) + 2)%R).
  destruct (botState w) as [c pos ce ip ct h f lc pl sc sw].
  cbn [connected center].
  destruct c; cbn [andb]; [|reflexivity].
  destruct (bool_decide (xz_distance np ce > r)%R) eqn:Hd;
    cbn [connected center set_position set_center andb].
  - destruct (bool_decide (xz_distance np np > r)%R); reflexivity.
  - rewrite Hd. reflexivity.
Qed.

(** X12.  After a move event on a connected bot the recorded position is
    within the radius plus 2 of the center in the horizontal plane (the
    sum being non-negative), whether the center has followed or not; on a
    bot that is not connected the center is left alone whatever the
    distance.  A second move event with the entity at the same place
    changes nothing more. *)
Theorem move_settles (w : World) (b : Bot) (p : Vec3) :
  bot w = Some b ->
  bot_entity b = Some p ->
  let w1 := world (on_move w) in
  (connected (botState w) = true ->
   (0 <= patrol_radius (config w) + 2)%R ->
   (xz_distance (position (botState w1)) (center (botState w1))
    <= patrol_radius (config w) + 2)%R)
  /\ (connected (botState w) = false ->
      center (botState w1) = center (botState w))
  /\ world (on_move w1) = w1.
Proof.
  intros Hb Hp w1. subst w1.
  destruct (on_move_run w b p Hb Hp) as [_ Hw]. rewrite Hw.
  split; [|split].
  - intros Hc Hr. cbn [botState]. unfold moved. rewrite Hc. cbn [andb].
    case_bool_decide as Hd; cbn [position center set_position set_center].
    + rewrite xz_distance_self. exact Hr.
    + apply Rnot_gt_le. exact Hd.
  - intros Hc. cbn [botState]. unfold moved. rewrite Hc. reflexivity.
  - destruct (on_move_run (mkWorld (config w) (moved w p) (bot w) (disk w))
                b p Hb Hp) as [_ ->].
    cbn [config bot disk]. now rewrite moved_again.
Qed.

Lemma move_settles_witness :
  let w1 := world (on_move sample_world) in
  (true = true ->
   (0 <= 5 + 2)%R ->
   (xz_distance (position (botState w1)) (center (botState w1)) <= 5 + 2)%R)
  /\ (true = false -> center (botState w1) = mkVec3 0 64 0)
  /\ world (on_move w1) = w1.
Proof.
  apply (move_settles sample_world sample_bot (mkVec3 (1004 / 100) 64 0));
    reflexivity.
Defined.

(** ** The list of players *)

(** X13.  After a player has joined or left, the list of players holds
    the names of [bot.players] other than the name of the bot itself, in
    their order: a name is listed exactly when it is a key of
    [bot.players] and is not [bot.username]. *)
Theorem player_list_excludes_bot (w : World) (b : Bot) :
  bot w = Some b ->
  let l := players (botState (world (updatePlayerList w))) in
  outcome (updatePlayerList w) = Returned tt
  /\ (forall name : JsString,
         In name l <-> In name (bot_players b) /\ name <> bot_name b)
  /\ ~ In (bot_name b) l
  /\ sublist l (bot_players b).
Proof.
  intros Hb l. subst l. unfold updatePlayerList. js_step. rewrite Hb. js_step.
  split; [reflexivity|].
  assert (forall name : JsString,
             In name (List.filter
                        (fun name0 => negb (bool_decide (name0 = bot_name b)))
                        (bot_players b))
             <-> In name (bot_players b) /\ name <> bot_name b) as Hin.
  { intros name. rewrite filter_In, negb_true_iff, bool_decide_eq_false.
    reflexivity. }
  split; [exact Hin|]. split.
  - intros H. apply Hin in H as [_ H]. now apply H.
  - clear Hin. induction (bot_players b) as [|n l IH]; cbn [List.filter];
      [constructor|].
    destruct (negb (bool_decide (n = bot_name b)));
      [apply sublist_skip | apply sublist_cons]; exact IH.
Qed.

Lemma player_list_excludes_bot_witness :
  players (botState (world (updatePlayerList sample_world))) = [js "Steve"]
  /\ ~ In (bot_name sample_bot)
         (players (botState (world (updatePlayerList sample_world)))).
Proof.
  split; [reflexivity|].
  apply (player_list_excludes_bot sample_world sample_bot eq_refl).
Defined.

(** ** The host of the configuration *)

Lemma last_rev {A} (l : list A) : last (rev l) = head l.
Proof. destruct l as [|a l]; [reflexivity|]. cbn [rev]. apply last_snoc. Qed.

Lemma head_rev {A} (l : list A) : head (rev l) = last l.
Proof. rewrite <- (rev_involutive l) at 2. now rewrite last_rev. Qed.

Lemma trim_start_head (s : JsString) (c : N) :
  head (trim_start s) = Some c -> is_white_space c = false.
Proof.
  induction s as [|a s IH]; [discriminate|]. cbn [trim_start].
  destruct (is_white_space a) eqn:Ha; [exact IH|].
  intros [= <-]. exact Ha.
Qed.

Lemma trim_start_suffix (s : JsString) :
  exists pre : JsString, s = pre ++ trim_start s.
Proof.
  induction s as [|a s [pre IH]]; [now exists []|]. cbn [trim_start].
  destruct (is_white_space a).
  - exists (a :: pre). cbn. now f_equal.
  - now exists [].
Qed.

Lemma trim_start_last (s : JsString) (c : N) :
  last (trim_start s) = Some c -> last s = Some c.
Proof.
  intros H. destruct (trim_start_suffix s) as [pre Hs].
  rewrite Hs, last_app, H. reflexivity.
Qed.

Lemma trim_start_clean (s : JsString) :
  (forall c, head s = Some c -> is_white_space c = false) ->
  trim_start s = s.
Proof.
  destruct s as [|a s]; [reflexivity|]. intros H. cbn [trim_start].
  now rewrite (H a eq_refl).
Qed.

Lemma trim_head (s : JsString) (c : N) :
  head (trim s) = Some c -> is_white_space c = false.
Proof.
  unfold trim. rewrite head_rev. intros H.
  apply trim_start_last in H. rewrite last_rev in H.
  exact (trim_start_head s c H).
Qed.

Lemma trim_last (s : JsString) (c : N) :
  last (trim s) = Some c -> is_white_space c = false.
Proof. unfold trim. rewrite last_rev. apply trim_start_head. Qed.

Lemma trim_trim (s : JsString) : trim (trim s) = trim s.
Proof.
  unfold trim at 1.
  rewrite (trim_start_clean (trim s)) by apply trim_head.
  rewrite (trim_start_clean (rev (trim s))).
  - apply rev_involutive.
  - intros c. rewrite head_rev. apply trim_last.
Qed.

(** A server switch that is answered with a success had a valid host and
    port. *)
Lemma update_server_accepted_valid (body : gmap string JsVal) (w : World) (resp : Response) :
  answer (api_update_server body w) = Some resp ->
  status resp = 200%N ->
  valid_switch body.
Proof.
  intros Ha Hs. destruct (valid_switch_dec body) as [Hv|Hv]; [exact Hv|].
  destruct (update_server_rejected body w Hv) as (e & _ & Hrun).
  unfold answer in Ha. rewrite Hrun in Ha. injection Ha as <-. discriminate Hs.
Qed.

(** X14.  The host an accepted server switch writes into the
    configuration is the host of the request without the white space
    around it: it is not empty, its first and its last code unit are no
    white space, and trimming it again gives it back. *)
Theorem stored_host_is_trimmed (body : gmap string JsVal) (w : World) (resp : Response) :
  answer (api_update_server body w) = Some resp ->
  status resp = 200%N ->
  let h := server_host (config (world (api_update_server body w))) in
  h = trim (as_string (prop body "host"))
  /\ h <> []
  /\ (forall c : N, head h = Some c -> is_white_space c = false)
  /\ (forall c : N, last h = Some c -> is_white_space c = false)
  /\ trim h = h.
Proof.
  intros Ha Hs h. subst h.
  destruct (update_server_accepted body w resp Ha Hs) as [-> _].
  destruct (update_server_accepted_valid body w resp Ha Hs)
    as [(s & Hhost & Hne) _].
  rewrite Hhost. cbn [as_string].
  split; [reflexivity|]. split; [exact Hne|].
  split; [apply trim_head|]. split; [apply trim_last | apply trim_trim].
Qed.

Lemma stored_host_is_trimmed_witness :
  let h := server_host (config (world (api_update_server sample_switch sample_world))) in
  h = trim (as_string (prop sample_switch "host"))
  /\ h <> []
  /\ (forall c : N, head h = Some c -> is_white_space c = false)
  /\ (forall c : N, last h = Some c -> is_white_space c = false)
  /\ trim h = h.
Proof.
  apply (stored_host_is_trimmed sample_switch sample_world (json PServerUpdated)).
  - rewrite (update_server_written sample_switch sample_world
               sample_switch_valid eq_refl).
    reflexivity.
  - reflexivity.
Defined.

Example stored_host_sample :
  server_host (config (world (api_update_server sample_switch sample_world)))
  = js "play.example.net".
Proof.
  rewrite (update_server_written sample_switch sample_world
             sample_switch_valid eq_refl).
  reflexivity.
Qed.

(** ** Toggling twice *)

Lemma toggle_flags (u v : R) (w : World) :
  connected (botState (world (api_toggle_patrol u v w))) = connected (botState w)
  /\ isPatrolling (botState (world (api_toggle_patrol u v w)))
     = (if isPatrolling (botState w) then false else connected (botState w))
  /\ answer (api_toggle_patrol u v w)
     = Some (json (PPatrol (if isPatrolling (botState w) then false
                            else connected (botState w)))).
Proof.
  unfold api_toggle_patrol, answer. js_step.
  destruct (isPatrolling (botState w)) eqn:Hi.
  - rewrite stopPatrolling_run. js_step. repeat split.
  - destruct (startPatrolling_flags u v w) as [Hc Hp].
    rewrite Hi, orb_false_r in Hp.
    destruct (startPatrolling u v w) as [[[] w1] es] eqn:Hrun.
    + cbn in Hc, Hp. js_step. rewrite Hc, Hp. repeat split.
    + rewrite startPatrolling_run in Hrun.
      destruct (connected (botState w) && negb (isPatrolling (botState w)));
        discriminate Hrun.
Qed.

(** X15.  In a state where a patrolling bot is connected, which is every
    state the script reaches, two toggle requests in a row bring
    [isPatrolling] back to what it was, and the second answer reports that
    value. *)
Theorem toggle_twice_restores (u1 v1 u2 v2 : R) (w : World) :
  patrolling_connected w ->
  let w1 := world (api_toggle_patrol u1 v1 w) in
  isPatrolling (botState (world (api_toggle_patrol u2 v2 w1)))
  = isPatrolling (botState w)
  /\ answer (api_toggle_patrol u2 v2 w1)
     = Some (json (PPatrol (isPatrolling (botState w)))).
Proof.
  intros HI w1. subst w1. unfold patrolling_connected in HI.
  destruct (toggle_flags u1 v1 w) as (Hc1 & Hp1 & _).
  destruct (toggle_flags u2 v2 (world (api_toggle_patrol u1 v1 w)))
    as (_ & Hp2 & Ha2).
  rewrite Ha2, Hp2, Hp1, Hc1.
  destruct (isPatrolling (botState w)), (connected (botState w));
    try (split; reflexivity).
  discriminate (HI eq_refl).
Qed.

Lemma toggle_twice_restores_witness :
  let w1 := world (api_toggle_patrol 0 0 patrolling_world) in
  isPatrolling (botState (world (api_toggle_patrol (1 / 4) (1 / 2) w1))) = true
  /\ answer (api_toggle_patrol (1 / 4) (1 / 2) w1)
     = Some (json (PPatrol true)).
Proof.
  apply (toggle_twice_restores 0 0 (1 / 4) (1 / 2) patrolling_world).
  intros _. reflexivity.
Defined.

(** ** The status endpoint *)

Lemma api_bot_status_run (now : R) (ping : option R) (w : World) :
  exists rep : StatusReport,
    api_bot_status now ping w = (Returned rep, w, [])
    /\ st_connected rep = connected (botState w)
    /\ st_isPatrolling rep = isPatrolling (botState w)
    /\ st_center rep = center (botState w)
    /\ st_position rep = position (botState w)
    /\ st_host rep = server_host (config w)
    /\ st_port rep = server_port (config w)
    /\ st_lastChat rep = lastChat (botState w).
Proof. eexists. repeat split. Qed.

(** X16.  The status endpoint reads and writes nothing, and what it
    reports is what the other endpoints have set: after a set-center
    request with three numbers the center of the report is that point;
    after an accepted server switch the current server of the report is
    the trimmed host and the port of the request; after a toggle request
    [isPatrolling] of the report is the one of the answer. *)
Theorem status_reports_what_was_set
    (now : R) (ping : option R) (u v : R) (body : gmap string JsVal) (w : World) :
  (world (api_bot_status now ping w) = w
   /\ effects (api_bot_status now ping w) = [])
  /\ (forall x y z : R,
         prop body "x" = JNum x -> prop body "y" = JNum y ->
         prop body "z" = JNum z ->
         exists rep : StatusReport,
           status_report now ping (world (api_set_center body w)) = Some rep
           /\ st_center rep = mkVec3 x y z)
  /\ (forall resp : Response,
         answer (api_update_server body w) = Some resp ->
         status resp = 200%N ->
         exists rep : StatusReport,
           status_report now ping (world (api_update_server body w)) = Some rep
           /\ st_host rep = trim (as_string (prop body "host"))
           /\ st_port rep = as_number (prop body "port"))
  /\ (exists rep : StatusReport,
         status_report now ping (world (api_toggle_patrol u v w)) = Some rep
         /\ answer (api_toggle_patrol u v w)
            = Some (json (PPatrol (st_isPatrolling rep)))).
Proof.
  split; [split; reflexivity|]. split; [|split].
  - intros x y z Hx Hy Hz.
    destruct (api_bot_status_run now ping (world (api_set_center body w)))
      as (rep & Hrun & _ & _ & Hc & _).
    exists rep. unfold status_report. rewrite Hrun. split; [reflexivity|].
    rewrite Hc. unfold api_set_center. rewrite Hx, Hy, Hz.
    cbn [typeof as_number].
    rewrite (bool_decide_eq_true_2 (TyNumber = TyNumber)) by reflexivity.
    unfold moveToCenter, moveToPosition. js_eval; reflexivity.
  - intros resp Ha Hs.
    destruct (api_bot_status_run now ping (world (api_update_server body w)))
      as (rep & Hrun & _ & _ & _ & _ & Hh & Hp & _).
    exists rep. unfold status_report. rewrite Hrun. split; [reflexivity|].
    rewrite Hh, Hp. exact (update_server_accepted body w resp Ha Hs).
  - destruct (api_bot_status_run now ping (world (api_toggle_patrol u v w)))
      as (rep & Hrun & _ & Hi & _).
    exists rep. unfold status_report. rewrite Hrun. split; [reflexivity|].
    rewrite Hi. destruct (toggle_flags u v w) as (_ & -> & ->). reflexivity.
Qed.

(** ** The target the state shows *)

Lemma handle_currentTarget (ev : Event) (i : Inputs) (w : World) :
  currentTarget (botState (handle ev i w).1)
  = match last (gotos (handle ev i w).2) with
    | Some t => Some t
    | None => currentTarget (botState w)
    end.
Proof.
  destruct ev as [| | | | | | | | |t|k| | | | |];
    try destruct t; try destruct k;
    js_handlers; js_step;
    repeat (match goal with
            | |- context [match ?x with _ => _ end] =>
                lazymatch x with
                | context [match _ with _ => _ end] => fail
                | context [last _] => fail
                | _ => destruct x eqn:?
                end
            end; js_step);
    reflexivity.
Qed.

(** X17.  [currentTarget] is the goal of the last move the script has
    asked of the pathfinder: after any sequence of events it is the target
    of the last [goto], and it is what it was if there was none.  It is
    never cleared, not when the move ends and not when the patrol stops or
    the connection ends. *)
Theorem currentTarget_is_last_goto (evs : list (Event * Inputs)) (w : World) :
  currentTarget (botState (run evs w).1)
  = match last (gotos (run evs w).2) with
    | Some t => Some t
    | None => currentTarget (botState w)
    end.
Proof.
  revert w. induction evs as [|[ev i] evs IH]; intros w; [reflexivity|].
  cbn [run]. pose proof (handle_currentTarget ev i w) as H1.
  destruct (handle ev i w) as [w1 es1]. specialize (IH w1).
  destruct (run evs w1) as [w2 es2]. cbn [fst snd] in *.
  unfold gotos in *. rewrite omap_app, last_app, IH, H1.
  destruct (last (omap _ es2)); reflexivity.
Qed.

(** ** From a lost connection back to the patrol *)

(** X18.  A connection that ends while no server switch is under way is
    taken up again without the user: the end handler sets the timer of the
    reconnection, its task creates a bot for the server of the
    configuration, the spawn of that bot sets the center to where it
    stands and sets the timer of the patrol, and the task of that timer
    starts the patrol with a move to a random point around the new
    center. *)
Theorem reconnect_cycle_resumes_patrol
    (w : World) (b : Bot) (p : Vec3) (i1 i2 i3 i4 : Inputs) :
  switchingServers (botState w) = false ->
  made i2 = Some b ->
  bot_entity b = Some p ->
  bot_pathfinder b = true ->
  let r := run [(EvEnd, i1); (EvTimer TReconnect, i2); (EvSpawn, i3);
                (EvTimer TAutoStart, i4)] w in
  bot r.1 = Some b
  /\ connected (botState r.1) = true
  /\ isPatrolling (botState r.1) = true
  /\ center (botState r.1) = p
  /\ timeouts r.2 = [(TReconnect, 5000%N); (TAutoStart, 2000%N)]
  /\ connections r.2 = [(server_host (config w), server_port (config w))]
  /\ gotos r.2 = [random_point (rand1 i4) (rand2 i4) r.1]
  /\ ~ In EUncaught r.2.
Proof.
  intros Hs Hm Hp Hf r. subst r.
  destruct w as [cfg st ob d]. destruct st. destruct b. destruct i2.
  cbn in Hs, Hm, Hp, Hf. subst.
  cbn [run]. js_handlers. js_unfold. cbn.
  repeat split.
  intros H; repeat (destruct H as [H|H]; [discriminate H|]); exact H.
Qed.

Lemma reconnect_cycle_resumes_patrol_witness :
  let i := mkInputs (Some sample_bot) (1 / 4) (1 / 2) in
  let r := run [(EvEnd, i); (EvTimer TReconnect, i); (EvSpawn, i);
                (EvTimer TAutoStart, i)] patrolling_world in
  bot r.1 = Some sample_bot
  /\ connected (botState r.1) = true
  /\ isPatrolling (botState r.1) = true
  /\ center (botState r.1) = mkVec3 (1004 / 100) 64 0
  /\ timeouts r.2 = [(TReconnect, 5000%N); (TAutoStart, 2000%N)]
  /\ connections r.2 = [(js "localhost", 25565%R)]
  /\ gotos r.2 = [random_point (1 / 4) (1 / 2) r.1]
  /\ ~ In EUncaught r.2.
Proof.
  apply (reconnect_cycle_resumes_patrol patrolling_world sample_bot
           (mkVec3 (1004 / 100) 64 0)
           (mkInputs (Some sample_bot) (1 / 4) (1 / 2))
           (mkInputs (Some sample_bot) (1 / 4) (1 / 2))
           (mkInputs (Some sample_bot) (1 / 4) (1 / 2))
           (mkInputs (Some sample_bot) (1 / 4) (1 / 2)));
    reflexivity.
Defined.

(** ** The first server *)

(** X19.  The script starts without a bot, so the first accepted server
    switch has no bot to quit and no end of connection follows it: the
    [switchingServers] flag it raises stays raised while the new bot
    connects and plays.  The first time the connection of that bot ends,
    whatever the reason, the end handler takes the flag for a switch and
    schedules no reconnection; only from the next end on does the script
    reconnect by itself. *)
Theorem first_connection_loss_not_reconnected
    (cfg : Config) (body : gmap string JsVal) (evs : list (Event * Inputs)) :
  valid_switch body ->
  Forall (fun e => e.1 <> EvEnd) evs ->
  let r := api_update_server body (initial_world cfg true) in
  let w1 := (run evs (world r)).1 in
  answer r = Some (json PServerUpdated)
  /\ ~ In (EQuit QSwitchingServers) (effects r)
  /\ timeouts (effects r) = [(TConnectNewServer, 2000%N)]
  /\ timeouts (effects (on_end w1)) = []
  /\ timeouts (effects (on_end (world (on_end w1)))) = [(TReconnect, 5000%N)].
Proof.
  intros Hv Hevs r w1. subst r w1.
  pose proof (update_server_written body (initial_world cfg true) Hv eq_refl)
    as Hrun. cbv zeta in Hrun. cbn [bot initial_world] in Hrun.
  rewrite Hrun. unfold answer. js_step.
  split; [reflexivity|]. split.
  { intros H. repeat (destruct H as [H|H]; [discriminate H|]). exact H. }
  split; [reflexivity|].
  match goal with
  | |- context [run evs ?w0] =>
      pose proof (run_keeps_switching evs w0 Hevs eq_refl) as Hflag
  end.
  rewrite !on_end_run, Hflag. cbn. split; reflexivity.
Qed.

Lemma first_connection_loss_not_reconnected_witness :
  let r := api_update_server sample_switch (initial_world sample_config true) in
  let w1 := (run [(EvTimer TConnectNewServer, mkInputs (Some sample_bot) 0 0);
                  (EvSpawn, mkInputs None 0 0)] (world r)).1 in
  answer r = Some (json PServerUpdated)
  /\ ~ In (EQuit QSwitchingServers) (effects r)
  /\ timeouts (effects r) = [(TConnectNewServer, 2000%N)]
  /\ timeouts (effects (on_end w1)) = []
  /\ timeouts (effects (on_end (world (on_end w1)))) = [(TReconnect, 5000%N)].
Proof.
  apply (first_connection_loss_not_reconnected sample_config sample_switch
           [(EvTimer TConnectNewServer, mkInputs (Some sample_bot) 0 0);
            (EvSpawn, mkInputs None 0 0)]
           sample_switch_valid).
  repeat constructor; discriminate.
Defined.
